(** * OCRmyPDF-PaddlePaddle: the invisible text layer generator

    A shallow embedding of [ocrmypdf_paddlepaddle/generators/pdf.py]
    (with the data model of [core/models.py]) and the properties of its
    content stream.

    Conventions of the embedding:
    - Python floats and ints that take part in the geometry are real
      numbers ([R]): arithmetic is exact.  [math.atan2], [math.hypot],
      [math.cos] and [math.sin] are their mathematical definitions.
    - A Python [str] is the list of its code points ([Z] in
      [0, 0x10FFFF]); [bytes] is a list of [Z] in [0, 255].
    - The [ContentStreamBuilder] is mutated in place by the source; here
      it is threaded through a state-and-exception monad in which a raised
      exception keeps the instructions appended so far. *)

From Stdlib Require Import String.
From Stdlib Require Import Reals Lra ZArith Lia List Bool Permutation.
Import ListNotations.

Local Open Scope Z_scope.

(** ** Python strings and the UTF-16BE codec *)

Module Utf16.

Definition codepoint := Z.
Definition pystr := list codepoint.
Definition bytes := list Z.

(** What the type [str] admits: any code point up to U+10FFFF, lone
    surrogates included. *)
Definition valid_codepoint (c : codepoint) : Prop := 0 <= c <= 0x10FFFF.
Definition valid_str (s : pystr) : Prop := Forall valid_codepoint s.

Definition is_surrogate (c : Z) : bool := (0xD800 <=? c) && (c <? 0xE000).

(** Big-endian bytes of one 16-bit code unit. *)
Definition unit_bytes (u : Z) : bytes := [Z.shiftr u 8; Z.land u 0xFF].

(** [str.encode("utf-16be")] on one code point; [None] is
    [UnicodeEncodeError] (surrogates not allowed). *)
Definition encode_codepoint (c : codepoint) : option bytes :=
  if c <? 0x10000 then
    if is_surrogate c then None else Some (unit_bytes c)
  else
    let c' := c - 0x10000 in
    Some (unit_bytes (0xD800 + Z.shiftr c' 10)
          ++ unit_bytes (0xDC00 + Z.land c' 0x3FF)).

Fixpoint encode (s : pystr) : option bytes :=
  match s with
  | [] => Some []
  | c :: s' =>
      match encode_codepoint c, encode s' with
      | Some b, Some bs => Some (b ++ bs)
      | _, _ => None
      end
  end.

(** [bytes.decode("utf-16be")]; [None] is [UnicodeDecodeError]
    (truncated data or an unpaired surrogate). *)
Fixpoint decode (b : bytes) : option pystr :=
  match b with
  | [] => Some []
  | b1 :: b2 :: rest =>
      let u := b1 * 256 + b2 in
      if negb (is_surrogate u) then option_map (cons u) (decode rest)
      else if u <? 0xDC00 then
        match rest with
        | b3 :: b4 :: rest' =>
            let v := b3 * 256 + b4 in
            if (0xDC00 <=? v) && (v <? 0xE000) then
              option_map
                (cons (0x10000 + (u - 0xD800) * 1024 + (v - 0xDC00)))
                (decode rest')
            else None
        | _ => None
        end
      else None
  | _ => None
  end.

Definition encodable (s : pystr) : bool :=
  forallb (fun c => negb (is_surrogate c)) s.

End Utf16.

Import Utf16.

(** ** Geometry: [pt_from_pixel], [bbox_to_poly], [poly_to_quad] *)

Local Open Scope R_scope.

(** Module constants of [pdf.py]. *)
Definition CHAR_ASPECT : Z := 2.
Definition ANGLE_THRESHOLD_RAD : R := 0.01.
Definition TEXT_RENDER_MODE_INVISIBLE : Z := 3.
Definition PDF_POINTS_PER_INCH : R := 72.
Definition HORIZONTAL_SCALE_FACTOR : R := 100.

(** [math.hypot] and [math.atan2] on exact reals. *)
Definition hypot (x y : R) : R := sqrt (x * x + y * y).

Definition atan2 (y x : R) : R :=
  if Rlt_dec 0 x then atan (y / x)
  else if Rlt_dec x 0 then
    if Rle_dec 0 y then atan (y / x) + PI else atan (y / x) - PI
  else if Rlt_dec 0 y then PI / 2
  else if Rlt_dec y 0 then - (PI / 2)
  else 0.

(** [zip(bbox[0::2], bbox[1::2])] pairs consecutive elements and drops an
    odd trailing one; each pair is scaled and flipped, then flattened. *)
Fixpoint pt_from_pixel (bbox : list R) (scale : R * R) (height : R) : list R :=
  match bbox with
  | x :: y :: rest =>
      x * fst scale :: (height - y) * snd scale
        :: pt_from_pixel rest scale height
  | _ => []
  end.

(** [x1, y1, x2, y2 = bbox] raises [ValueError] unless there are exactly
    four elements. *)
Definition bbox_to_poly (bbox : list R) : option (list (list R)) :=
  match bbox with
  | [x1; y1; x2; y2] => Some [[x1; y1]; [x2; y1]; [x2; y2]; [x1; y2]]
  | _ => None
  end.

Definition poly_to_quad (poly : list (list R)) : list R := concat poly.

(** The inverse map of the coordinate round trip: [x / scale_x] on the
    even positions and [height - y / scale_y] on the odd ones. *)
Fixpoint pixel_from_pt (quad : list R) (scale : R * R) (height : R) : list R :=
  match quad with
  | x :: y :: rest =>
      x / fst scale :: height - y / snd scale
        :: pixel_from_pt rest scale height
  | _ => []
  end.

(** ** Data model ([core/models.py]) *)

(** A word is the dict built by [_extract_ocr_words_for_block]; the
    generator reads it with [dict.get], so a key may be absent. *)
Record word_data := {
  word_text : option pystr;
  word_bbox : option (list R);
  word_label : option string;
  word_score : option R
}.

Record PaddleBlock := {
  label : string;
  bbox : list R;
  content : string;
  ocr_words : list word_data
}.

Record PaddleResult := { blocks : list PaddleBlock }.

(** [dict.get(key, default)]. *)
Definition get {A} (field : option A) (default : A) : A :=
  match field with Some v => v | None => default end.

(** ** Content stream instructions (pikepdf objects) *)

(** pikepdf's [Object]: what instruction operands and font dictionaries
    are made of.  [Indirect] is a reference into the document's object
    table. *)
Unset Elimination Schemes.
Inductive Object :=
| Real (r : R)
| Int (z : Z)
| Name (s : string)
| Str (s : string)
| Dictionary (entries : list (string * Object))
| Array (items : list Object)
| Bytes (b : bytes)
| Indirect (objid : nat).
Set Elimination Schemes.

Record ContentStreamInstruction := {
  operands : list Object;
  operator : string
}.

Definition Operator (s : string) : string := s.

(** ** [ContentStreamBuilder]

    Every method appends one instruction to [_instructions] and returns
    the builder.  [TJ] alone can raise, when the text has no UTF-16
    encoding, and then appends nothing. *)
Module ContentStreamBuilder.

Record t := { _instructions : list ContentStreamInstruction }.

Definition init : t := {| _instructions := [] |}.

Definition append (self : t) (i : ContentStreamInstruction) : t :=
  {| _instructions := _instructions self ++ [i] |}.

Definition q (self : t) : t :=
  append self {| operands := []; operator := Operator "q" |}.

Definition Q (self : t) : t :=
  append self {| operands := []; operator := Operator "Q" |}.

Definition cm (a b c d e f : R) (self : t) : t :=
  append self {| operands := [Real a; Real b; Real c; Real d; Real e; Real f];
                 operator := Operator "cm" |}.

Definition BT (self : t) : t :=
  append self {| operands := []; operator := Operator "BT" |}.

Definition ET (self : t) : t :=
  append self {| operands := []; operator := Operator "ET" |}.

Definition BDC (mctype : string) (mcid : Z) (self : t) : t :=
  append self {| operands := [Name mctype; Dictionary [("/MCID"%string, Int mcid)]];
                 operator := Operator "BDC" |}.

Definition EMC (self : t) : t :=
  append self {| operands := []; operator := Operator "EMC" |}.

Definition Tf (font : string) (size : R) (self : t) : t :=
  append self {| operands := [Name font; Real size]; operator := Operator "Tf" |}.

Definition Tm (a b c d e f : R) (self : t) : t :=
  append self {| operands := [Real a; Real b; Real c; Real d; Real e; Real f];
                 operator := Operator "Tm" |}.

Definition Tr (mode : Z) (self : t) : t :=
  append self {| operands := [Int mode]; operator := Operator "Tr" |}.

Definition Tz (scale : R) (self : t) : t :=
  append self {| operands := [Real scale]; operator := Operator "Tz" |}.

Definition TJ (text : pystr) (self : t) : option t :=
  match Utf16.encode text with
  | Some b =>
      Some (append self {| operands := [Array [Bytes b]];
                           operator := Operator "TJ" |})
  | None => None
  end.

Definition s (self : t) : t :=
  append self {| operands := []; operator := Operator "s" |}.

Definition re (x y : Z) (w h : R) (self : t) : t :=
  append self {| operands := [Int x; Int y; Real w; Real h];
                 operator := Operator "re" |}.

Definition RG (r g b : Z) (self : t) : t :=
  append self {| operands := [Int r; Int g; Int b]; operator := Operator "RG" |}.

Definition build (self : t) : list ContentStreamInstruction :=
  _instructions self.

End ContentStreamBuilder.

(** ** The body of the [try] block: state and exceptions *)

Inductive exn :=
| UnicodeEncodeError
| ValueError (msg : string)
| RuntimeError (msg : string)
| ZeroDivisionError
| OSError.

(** A computation over the builder.  An exception ([inl]) comes with the
    builder as it was when it was raised: what was appended stays. *)
Definition M (A : Type) : Type :=
  ContentStreamBuilder.t -> (exn + A) * ContentStreamBuilder.t.

Definition ret {A} (a : A) : M A := fun cs => (inr a, cs).

Definition bind {A B} (m : M A) (k : A -> M B) : M B :=
  fun cs =>
    match m cs with
    | (inr a, cs') => k a cs'
    | (inl e, cs') => (inl e, cs')
    end.

Definition raise {A} (e : exn) : M A := fun cs => (inl e, cs).

(** A builder method called as a statement. *)
Definition call (f : ContentStreamBuilder.t -> ContentStreamBuilder.t) : M unit :=
  fun cs => (inr tt, f cs).

Definition call_TJ (text : pystr) : M unit :=
  fun cs =>
    match ContentStreamBuilder.TJ text cs with
    | Some cs' => (inr tt, cs')
    | None => (inl UnicodeEncodeError, cs)
    end.

Definition lift_option {A} (e : exn) (o : option A) : M A :=
  match o with Some a => ret a | None => raise e end.

Declare Scope builder_scope.
Delimit Scope builder_scope with builder.
Notation "x <- m ;; k" := (bind m (fun x => k))
  (at level 61, m at next level, right associativity) : builder_scope.
Notation "m ;;; k" := (bind m (fun _ => k))
  (at level 61, right associativity) : builder_scope.

(** ** [generate_text_content_stream] *)

Module CS := ContentStreamBuilder.

(** The builder after a sequence of appends. *)
Definition extend (cs : CS.t) (l : list ContentStreamInstruction) : CS.t :=
  {| CS._instructions := CS._instructions cs ++ l |}.

Section Generate.

Variables (scale : R * R) (height : Z) (boxes : bool).

Local Open Scope builder_scope.

(** The debug rectangle drawn after a run when [boxes] is set. *)
Definition debug_box (cos_a sin_a x y box_width font_size : R) : M unit :=
  call CS.q ;;;
  call (CS.cm cos_a (- sin_a) sin_a cos_a x y) ;;;
  call (CS.re 0 0 box_width font_size) ;;;
  call (CS.RG 100 100 100) ;;;
  call CS.s ;;;
  call CS.Q.

(** The statements inside [try:] for one word.  The value returned is
    [mcid_counter] as the body leaves it: unchanged on a [continue],
    incremented after a complete run.  [quad] has eight elements once
    the length tests have passed, so the indexing cannot fail. *)
Definition word_body (mcid_counter : Z) (word : word_data) : M Z :=
  let text := get (word_text word) [] in
  let word_bbox := get (word_bbox word) [] in
  let score := get (word_score word) 0 in
  if (length text =? 0)%nat || negb (length word_bbox =? 4)%nat then
    ret mcid_counter
  else
    poly <- lift_option (ValueError "unpack") (bbox_to_poly word_bbox) ;;
    let quad := poly_to_quad poly in
    if negb (length quad =? 8)%nat then ret mcid_counter
    else
      let bbox := pt_from_pixel quad scale (IZR height) in
      let angle := - atan2 (nth 5 bbox 0 - nth 7 bbox 0)
                           (nth 4 bbox 0 - nth 6 bbox 0) in
      let angle := if Rlt_dec (Rabs angle) ANGLE_THRESHOLD_RAD then 0 else angle in
      let cos_a := cos angle in
      let sin_a := sin angle in
      let font_size := hypot (nth 0 bbox 0 - nth 6 bbox 0)
                             (nth 1 bbox 0 - nth 7 bbox 0) in
      let space_width := 0 in
      let box_width := hypot (nth 4 bbox 0 - nth 6 bbox 0)
                             (nth 5 bbox 0 - nth 7 bbox 0) + space_width in
      if (length text =? 0)%nat
         || (if Rle_dec box_width 0 then true else false)
         || (if Rle_dec font_size 0 then true else false)
      then ret mcid_counter
      else
        let h_stretch :=
          HORIZONTAL_SCALE_FACTOR * box_width / INR (length text)
            / font_size * IZR CHAR_ASPECT in
        call CS.BT ;;;
        call (CS.BDC "/Span" mcid_counter) ;;;
        call (CS.Tr TEXT_RENDER_MODE_INVISIBLE) ;;;
        call (CS.Tm cos_a (- sin_a) sin_a cos_a (nth 6 bbox 0) (nth 7 bbox 0)) ;;;
        call (CS.Tf "/f-0-0" font_size) ;;;
        call (CS.Tz h_stretch) ;;;
        call_TJ text ;;;
        call CS.EMC ;;;
        call CS.ET ;;;
        (if boxes
         then debug_box cos_a sin_a (nth 6 bbox 0) (nth 7 bbox 0) box_width font_size
         else ret tt) ;;;
        ret (mcid_counter + 1)%Z.

(** One iteration of [for word_data in ocr_words]: the [try] block, and
    [except Exception: log.warning(...); continue], which keeps the
    builder as the exception left it and the counter as it was. *)
Definition process_word (st : CS.t * Z) (word : word_data) : CS.t * Z :=
  let '(cs, mcid_counter) := st in
  match word_body mcid_counter word cs with
  | (inr mcid_counter', cs') => (cs', mcid_counter')
  | (inl _, cs') => (cs', mcid_counter)
  end.

(** One iteration of [for block in ocr_result.blocks]. *)
Definition process_block (st : CS.t * Z) (block : PaddleBlock) : CS.t * Z :=
  match ocr_words block with
  | [] => st
  | words => fold_left process_word words st
  end.

End Generate.

Definition generate_text_content_stream
    (ocr_result : option PaddleResult) (scale : R * R) (height : Z)
    (boxes : bool) : list ContentStreamInstruction :=
  let cs := CS.q CS.init in
  match ocr_result with
  | None => CS.build (CS.Q cs)
  | Some result =>
      match blocks result with
      | [] => CS.build (CS.Q cs)
      | bs =>
          let mcid_counter := 0%Z in
          let '(cs, _) :=
            fold_left (process_block scale height boxes) bs (cs, mcid_counter) in
          CS.build (CS.Q cs)
      end
  end.

(** ** The document: [Pdf], [register_glyphlessfont] *)

Inductive indirect_object :=
| IndirectDict (entries : list (string * Object))
| Stream (data : bytes)
| ContentStream (instructions : list ContentStreamInstruction).

Record Page := {
  page_size : R * R;
  Resources : option Object;
  Contents : option nat
}.

Record Pdf := {
  objects : list indirect_object;
  pages : list Page
}.

Module PdfOps.

Definition new : Pdf := {| objects := []; pages := [] |}.

(** [pdf.make_indirect(obj)] and [pdf.make_stream(data)]: a new entry of
    the object table, and the reference to it. *)
Definition alloc (pdf : Pdf) (o : indirect_object) : nat * Pdf :=
  (length (objects pdf), {| objects := objects pdf ++ [o]; pages := pages pdf |}).

Definition make_indirect (pdf : Pdf) (d : list (string * Object)) : nat * Pdf :=
  alloc pdf (IndirectDict d).

Definition make_stream (pdf : Pdf) (data : bytes) : nat * Pdf :=
  alloc pdf (Stream data).

Fixpoint set_key (d : list (string * Object)) (key : string) (v : Object)
  : list (string * Object) :=
  match d with
  | [] => [(key, v)]
  | (k, v') :: d' =>
      if String.eqb k key then (k, v) :: d' else (k, v') :: set_key d' key v
  end.

Fixpoint update {A} (l : list A) (n : nat) (f : A -> A) : list A :=
  match l, n with
  | [], _ => []
  | a :: l', O => f a :: l'
  | a :: l', S n' => a :: update l' n' f
  end.

(** [obj.Key = value] on an indirect dictionary. *)
Definition setattr (pdf : Pdf) (objid : nat) (key : string) (v : Object) : Pdf :=
  {| objects :=
       update (objects pdf) objid
         (fun o => match o with
                   | IndirectDict d => IndirectDict (set_key d key v)
                   | o' => o'
                   end);
     pages := pages pdf |}.

Definition add_blank_page (pdf : Pdf) (size : R * R) : Pdf :=
  {| objects := objects pdf;
     pages := pages pdf
              ++ [{| page_size := size; Resources := None; Contents := None |}] |}.

Definition set_page0 (pdf : Pdf) (f : Page -> Page) : Pdf :=
  {| objects := objects pdf; pages := update (pages pdf) 0 f |}.

End PdfOps.

(** [b"..." * n] on bytes. *)
Fixpoint bytes_repeat (b : bytes) (n : nat) : bytes :=
  match n with
  | O => []
  | S n' => b ++ bytes_repeat b n'
  end.

Definition bytes_of_string (s : string) : bytes :=
  map (fun a => Z.of_N (Ascii.N_of_ascii a)) (list_ascii_of_string s).

Definition CIDToGIDMap_data : bytes := bytes_repeat [0x00; 0x01]%Z (Z.to_nat 65536).

Definition ToUnicode_data : bytes := bytes_of_string
"/CIDInit /ProcSet findresource begin
12 dict begin
begincmap
/CIDSystemInfo
<<
  /Registry (Adobe)
  /Ordering (UCS)
  /Supplement 0
>> def
/CMapName /Adobe-Identify-UCS def
/CMapType 2 def
1 begincodespacerange
<0000> <FFFF>
endcodespacerange
1 beginbfrange
<0000> <FFFF> <0000>
endbfrange
endcmap
CMapName currentdict /CMap defineresource pop
end
end
".

Section Assembler.

(** The glyph program [resources/fonts/pdf.ttf], read at import time. *)
Variable GLYPHLESS_FONT : bytes.

Definition PLACEHOLDER : Object := Name "/Placeholder".

Definition register_glyphlessfont (pdf : Pdf) : nat * Pdf :=
  let '(basefont, pdf) :=
    PdfOps.make_indirect pdf
      [("/BaseFont", Name "/GlyphLessFont");
       ("/DescendantFonts", Array [PLACEHOLDER]);
       ("/Encoding", Name "/Identity-H");
       ("/Subtype", Name "/Type0");
       ("/ToUnicode", PLACEHOLDER);
       ("/Type", Name "/Font")]%string in
  let '(cid_font_type2, pdf) :=
    PdfOps.make_indirect pdf
      [("/BaseFont", Name "/GlyphLessFont");
       ("/CIDToGIDMap", PLACEHOLDER);
       ("/CIDSystemInfo",
        Dictionary [("/Ordering", Str "Identity");
                    ("/Registry", Str "Adobe");
                    ("/Supplement", Int 0)]);
       ("/FontDescriptor", PLACEHOLDER);
       ("/Subtype", Name "/CIDFontType2");
       ("/Type", Name "/Font");
       ("/DW", Int (1000 / CHAR_ASPECT))]%string in
  let pdf := PdfOps.setattr pdf basefont "/DescendantFonts"
               (Array [Indirect cid_font_type2]) in
  let '(cidmap, pdf) := PdfOps.make_stream pdf CIDToGIDMap_data in
  let pdf := PdfOps.setattr pdf cid_font_type2 "/CIDToGIDMap" (Indirect cidmap) in
  let '(tounicode, pdf) := PdfOps.make_stream pdf ToUnicode_data in
  let pdf := PdfOps.setattr pdf basefont "/ToUnicode" (Indirect tounicode) in
  let '(font_descriptor, pdf) :=
    PdfOps.make_indirect pdf
      [("/Ascent", Int 1000);
       ("/CapHeight", Int 1000);
       ("/Descent", Int (-1));
       ("/Flags", Int 5);
       ("/FontBBox", Array [Int 0; Int 0; Int (1000 / CHAR_ASPECT); Int 1000]);
       ("/FontFile2", PLACEHOLDER);
       ("/FontName", Name "/GlyphLessFont");
       ("/ItalicAngle", Int 0);
       ("/StemV", Int 80);
       ("/Type", Name "/FontDescriptor")]%string in
  let '(fontfile, pdf) := PdfOps.make_stream pdf GLYPHLESS_FONT in
  let pdf := PdfOps.setattr pdf font_descriptor "/FontFile2" (Indirect fontfile) in
  let pdf := PdfOps.setattr pdf cid_font_type2 "/FontDescriptor"
               (Indirect font_descriptor) in
  (basefont, pdf).

(** ** [paddleocr_to_pdf]

    What the function asks of the outside world: whether the image path
    exists, what [Image.open] gives ([None] when it raises), and whether
    [pdf.save] succeeds. *)
Record Image := {
  im_dpi : option (R * R);
  im_width : Z;
  im_height : Z
}.

Record World := {
  path_exists : bool;
  image_open : option Image;
  save_ok : bool
}.

(** The body of the first [try], under [with Image.open(...) as im]. *)
Definition read_image (w : World) (image_scale : R) : exn + (Z * Z * (R * R)) :=
  match image_open w with
  | None => inl OSError
  | Some im =>
      let dpi := get (im_dpi im) (PDF_POINTS_PER_INCH, PDF_POINTS_PER_INCH) in
      let width := im_width im in
      let height := im_height im in
      if ((width <=? 0) || (height <=? 0))%Z then
        inl (ValueError "Invalid image dimensions")
      else if Req_dec_T (fst dpi) 0 then inl ZeroDivisionError
      else if Req_dec_T (snd dpi) 0 then inl ZeroDivisionError
      else
        inr (width, height,
             (PDF_POINTS_PER_INCH / fst dpi / image_scale,
              PDF_POINTS_PER_INCH / snd dpi / image_scale))
  end.

(** The result, and the document as far as it was built: [None] when
    [Pdf.new()] was never reached. *)
Definition paddleocr_to_pdf (w : World) (image_scale : R)
    (ocr_result : option PaddleResult) (boxes : bool)
  : (exn + unit) * option Pdf :=
  if negb (path_exists w) then
    (inl (ValueError "Image file not found"), None)
  else if Rle_dec image_scale 0 then
    (inl (ValueError "Invalid image_scale"), None)
  else
    match read_image w image_scale with
    | inl _ => (inl (ValueError "Failed to open image"), None)
    | inr (width, height, scale) =>
        let pdf := PdfOps.new in
        let pdf := PdfOps.add_blank_page pdf
                     (IZR width * fst scale, IZR height * snd scale) in
        let '(font, pdf) := register_glyphlessfont pdf in
        let pdf := PdfOps.set_page0 pdf (fun pg =>
          {| page_size := page_size pg;
             Resources := Some (Dictionary
               [("/Font", Dictionary [("/f-0-0", Indirect font)])]%string);
             Contents := Contents pg |}) in
        let cs := generate_text_content_stream ocr_result scale height boxes in
        let '(stream, pdf) := PdfOps.alloc pdf (ContentStream cs) in
        let pdf := PdfOps.set_page0 pdf (fun pg =>
          {| page_size := page_size pg;
             Resources := Resources pg;
             Contents := Some stream |}) in
        if save_ok w then (inr tt, Some pdf)
        else (inl (RuntimeError "Failed to generate PDF"), Some pdf)
    end.

End Assembler.

(** ** Reading a content stream back *)

Definition is_op (op : string) (i : ContentStreamInstruction) : bool :=
  String.eqb (operator i) op.

(** The byte strings shown by the [TJ] instructions, in stream order. *)
Definition shown_bytes (o : Object) : list bytes :=
  match o with
  | Array items =>
      flat_map (fun it => match it with Bytes b => [b] | _ => [] end) items
  | _ => []
  end.

Definition TJ_operands (l : list ContentStreamInstruction) : list bytes :=
  flat_map (fun i => if is_op "TJ" i then flat_map shown_bytes (operands i) else []) l.

(** Decode every operand and concatenate, with nothing in between. *)
Fixpoint decode_all (bs : list bytes) : option pystr :=
  match bs with
  | [] => Some []
  | b :: bs' =>
      match Utf16.decode b, decode_all bs' with
      | Some s, Some t => Some (s ++ t)
      | _, _ => None
      end
  end.

(** The marked-content ids carried by the [BDC] instructions. *)
Definition MCID_of (i : ContentStreamInstruction) : list Z :=
  if is_op "BDC" i then
    flat_map (fun o => match o with
                       | Dictionary [(key, Int mcid)] =>
                           if String.eqb key "/MCID" then [mcid] else []
                       | _ => []
                       end) (operands i)
  else [].

Definition MCIDs (l : list ContentStreamInstruction) : list Z :=
  flat_map MCID_of l.

(** The [BT ... ET] runs of a stream: a run opens at a [BT] and is
    complete at the next [ET]; instructions outside a run belong to none,
    and a [BT] met inside an open run starts over. *)
Fixpoint runs_from (cur : option (list ContentStreamInstruction))
    (l : list ContentStreamInstruction) : list (list ContentStreamInstruction) :=
  match l with
  | [] => []
  | i :: l' =>
      if is_op "BT" i then runs_from (Some [i]) l'
      else if is_op "ET" i then
        match cur with
        | Some r => (r ++ [i]) :: runs_from None l'
        | None => runs_from None l'
        end
      else runs_from (option_map (fun r => r ++ [i]) cur) l'
  end.

Definition runs (l : list ContentStreamInstruction) := runs_from None l.

(** Bracket discipline of a content stream: [q]/[Q], [BT]/[ET] and
    [BDC]/[EMC] close in the reverse order of opening, a [BT] never opens
    inside a text object, and a [BDC] opens directly inside one. *)
Fixpoint balanced (stack : list string) (l : list ContentStreamInstruction) : bool :=
  match l with
  | [] => match stack with [] => true | _ => false end
  | i :: l' =>
      if is_op "q" i then balanced ("q"%string :: stack) l'
      else if is_op "BT" i then
        negb (existsb (String.eqb "BT") stack) && balanced ("BT"%string :: stack) l'
      else if is_op "BDC" i then
        match stack with
        | top :: _ => String.eqb top "BT" && balanced ("BDC"%string :: stack) l'
        | [] => false
        end
      else if is_op "Q" i then
        match stack with
        | top :: st => String.eqb top "q" && balanced st l'
        | [] => false
        end
      else if is_op "ET" i then
        match stack with
        | top :: st => String.eqb top "BT" && balanced st l'
        | [] => false
        end
      else if is_op "EMC" i then
        match stack with
        | top :: st => String.eqb top "BDC" && balanced st l'
        | [] => false
        end
      else balanced stack l'
  end.

Definition well_bracketed (l : list ContentStreamInstruction) : bool :=
  match l with
  | first :: _ => is_op "q" first && is_op "Q" (last l first) && balanced [] l
  | [] => false
  end.

(** ** The geometry of one word, named

    The expressions of the loop body, as functions of the word's pixel
    [bbox]; the theorems below speak of them by these names. *)
Section WordGeometry.

Variables (scale : R * R) (height : Z).

Definition word_pts (wb : list R) : list R :=
  match bbox_to_poly wb with
  | Some poly => pt_from_pixel (poly_to_quad poly) scale (IZR height)
  | None => []
  end.

Definition raw_angle (wb : list R) : R :=
  let p := word_pts wb in
  - atan2 (nth 5 p 0 - nth 7 p 0) (nth 4 p 0 - nth 6 p 0).

Definition snap (angle : R) : R :=
  if Rlt_dec (Rabs angle) ANGLE_THRESHOLD_RAD then 0 else angle.

Definition font_size_of (wb : list R) : R :=
  let p := word_pts wb in
  hypot (nth 0 p 0 - nth 6 p 0) (nth 1 p 0 - nth 7 p 0).

Definition box_width_of (wb : list R) : R :=
  let p := word_pts wb in
  hypot (nth 4 p 0 - nth 6 p 0) (nth 5 p 0 - nth 7 p 0) + 0.

(** The invariant a word must meet to be emitted: non-empty text, a
    four-element bbox, positive run width and font size. *)
Definition word_valid (w : word_data) : bool :=
  let text := get (word_text w) [] in
  let wb := get (word_bbox w) [] in
  negb (length text =? 0)%nat && (length wb =? 4)%nat
  && (if Rle_dec (box_width_of wb) 0 then false else true)
  && (if Rle_dec (font_size_of wb) 0 then false else true).

(** A word is emitted when it is valid and its text can be encoded; any
    other word is skipped, by a [continue] or by the [except] clause. *)
Definition word_emitted (w : word_data) : bool :=
  word_valid w && Utf16.encodable (get (word_text w) []).

Definition instr (ops : list Object) (op : string) : ContentStreamInstruction :=
  {| operands := ops; operator := op |}.

(** What one valid word appends before its text is encoded. *)
Definition run_head (mcid : Z) (w : word_data) : list ContentStreamInstruction :=
  let text := get (word_text w) [] in
  let wb := get (word_bbox w) [] in
  let p := word_pts wb in
  let a := snap (raw_angle wb) in
  [ instr [] "BT";
    instr [Name "/Span"; Dictionary [("/MCID"%string, Int mcid)]] "BDC";
    instr [Int 3] "Tr";
    instr [Real (cos a); Real (- sin a); Real (sin a); Real (cos a);
           Real (nth 6 p 0); Real (nth 7 p 0)] "Tm";
    instr [Name "/f-0-0"; Real (font_size_of wb)] "Tf";
    instr [Real (100 * box_width_of wb / INR (length text) / font_size_of wb * 2)] "Tz" ].

Definition run_tail (b : bytes) : list ContentStreamInstruction :=
  [ instr [Array [Bytes b]] "TJ"; instr [] "EMC"; instr [] "ET" ].

Definition box_of (w : word_data) : list ContentStreamInstruction :=
  let wb := get (word_bbox w) [] in
  let p := word_pts wb in
  let a := snap (raw_angle wb) in
  [ instr [] "q";
    instr [Real (cos a); Real (- sin a); Real (sin a); Real (cos a);
           Real (nth 6 p 0); Real (nth 7 p 0)] "cm";
    instr [Int 0; Int 0; Real (box_width_of wb); Real (font_size_of wb)] "re";
    instr [Int 100; Int 100; Int 100] "RG";
    instr [] "s";
    instr [] "Q" ].

(** The instructions one word contributes, and the counter after it. *)
Definition word_fragment (boxes : bool) (mcid : Z) (w : word_data)
  : list ContentStreamInstruction * Z :=
  if word_valid w then
    match Utf16.encode (get (word_text w) []) with
    | Some b =>
        (run_head mcid w ++ run_tail b ++ (if boxes then box_of w else []),
         (mcid + 1)%Z)
    | None => (run_head mcid w, mcid)
    end
  else ([], mcid).

Fixpoint fragments (boxes : bool) (mcid : Z) (ws : list word_data)
  : list ContentStreamInstruction :=
  match ws with
  | [] => []
  | w :: ws' =>
      let '(f, mcid') := word_fragment boxes mcid w in
      f ++ fragments boxes mcid' ws'
  end.

(** How far the counter has advanced after a list of words. *)
Definition emitted_count (ws : list word_data) : Z :=
  Z.of_nat (length (filter word_emitted ws)).

(** The complete runs a list of words yields, the counter starting at
    [mcid]. *)
Fixpoint complete_runs (mcid : Z) (ws : list word_data)
  : list (list ContentStreamInstruction) :=
  match ws with
  | [] => []
  | w :: ws' =>
      if word_valid w then
        match Utf16.encode (get (word_text w) []) with
        | Some b => (run_head mcid w ++ run_tail b) :: complete_runs (mcid + 1)%Z ws'
        | None => complete_runs mcid ws'
        end
      else complete_runs mcid ws'
  end.

End WordGeometry.

(** Distance between two points. *)
Definition dist (p q : R * R) : R := hypot (fst p - fst q) (snd p - snd q).

(** A result with every confidence score forgotten. *)
Definition erase_score (w : word_data) : word_data :=
  {| word_text := word_text w; word_bbox := word_bbox w;
     word_label := word_label w; word_score := None |}.

Definition erase_block_scores (b : PaddleBlock) : PaddleBlock :=
  {| label := label b; bbox := bbox b; content := content b;
     ocr_words := map erase_score (ocr_words b) |}.

Definition erase_scores (r : PaddleResult) : PaddleResult :=
  {| blocks := map erase_block_scores (blocks r) |}.

(** Reading the font back: the glyph index a [CIDToGIDMap] stream gives
    to a CID is the big-endian 16-bit entry at offset [2 * cid]. *)
Definition GID_of (data : bytes) (cid : Z) : Z :=
  (nth (Z.to_nat (2 * cid)) data 0 * 256
   + nth (Z.to_nat (2 * cid + 1)) data 0)%Z.

Fixpoint lookup (d : list (string * Object)) (key : string) : option Object :=
  match d with
  | [] => None
  | (k, v) :: d' => if String.eqb k key then Some v else lookup d' key
  end.

Definition deref_dict (pdf : Pdf) (objid : nat) : option (list (string * Object)) :=
  match nth_error (objects pdf) objid with
  | Some (IndirectDict d) => Some d
  | _ => None
  end.

(** Follow [/DescendantFonts] and [/CIDToGIDMap] from the base font to
    the bytes of the map stream. *)
Definition CIDToGIDMap_of (pdf : Pdf) (basefont : nat) : option bytes :=
  match deref_dict pdf basefont with
  | Some d =>
      match lookup d "/DescendantFonts" with
      | Some (Array [Indirect cidfont]) =>
          match deref_dict pdf cidfont with
          | Some d' =>
              match lookup d' "/CIDToGIDMap" with
              | Some (Indirect m) =>
                  match nth_error (objects pdf) m with
                  | Some (Stream data) => Some data
                  | _ => None
                  end
              | _ => None
              end
          | None => None
          end
      | _ => None
      end
  | None => None
  end.

(** All the words of a result, blocks in order, words in block order. *)
Definition all_words (r : option PaddleResult) : list word_data :=
  match r with
  | Some result => flat_map ocr_words (blocks result)
  | None => []
  end.

(** ** Further ways of reading a stream and a document *)

(** The operators of the text layer, as opposed to those of the debug
    rectangles and of the outer save/restore pair. *)
Definition text_operators : list string :=
  ["BT"; "BDC"; "Tr"; "Tm"; "Tf"; "Tz"; "TJ"; "EMC"; "ET"]%string.

Definition is_text_op (i : ContentStreamInstruction) : bool :=
  existsb (String.eqb (operator i)) text_operators.

Definition text_layer (l : list ContentStreamInstruction)
  : list ContentStreamInstruction := filter is_text_op l.

Definition count_op (op : string) (l : list ContentStreamInstruction) : nat :=
  length (filter (is_op op) l).

(** Does a dictionary still hold [Name.Placeholder], directly or inside
    an array or a nested dictionary? *)
Fixpoint has_placeholder (o : Object) : bool :=
  match o with
  | Name s => String.eqb s "/Placeholder"
  | Array items => existsb has_placeholder items
  | Dictionary entries => existsb (fun kv => has_placeholder (snd kv)) entries
  | _ => false
  end.

Definition object_has_placeholder (o : indirect_object) : bool :=
  match o with
  | IndirectDict d => existsb (fun kv => has_placeholder (snd kv)) d
  | _ => false
  end.

(** Follow a reference held under [key] in an indirect dictionary. *)
Definition follow (pdf : Pdf) (objid : nat) (key : string) : option nat :=
  match deref_dict pdf objid with
  | Some d =>
      match lookup d key with
      | Some (Indirect n) => Some n
      | Some (Array [Indirect n]) => Some n
      | _ => None
      end
  | None => None
  end.

Definition stream_data (pdf : Pdf) (objid : nat) : option bytes :=
  match nth_error (objects pdf) objid with
  | Some (Stream data) => Some data
  | _ => None
  end.




(** The six objects of the font once every placeholder has been filled
    in, for a font whose first object has number [n]. *)
Definition font_objects (n : nat) (font : bytes) : list indirect_object :=
  [ IndirectDict
      [("/BaseFont", Name "/GlyphLessFont");
       ("/DescendantFonts", Array [Indirect (n + 1)]);
       ("/Encoding", Name "/Identity-H");
       ("/Subtype", Name "/Type0");
       ("/ToUnicode", Indirect (n + 3));
       ("/Type", Name "/Font")]%string;
    IndirectDict
      [("/BaseFont", Name "/GlyphLessFont");
       ("/CIDToGIDMap", Indirect (n + 2));
       ("/CIDSystemInfo",
        Dictionary [("/Ordering", Str "Identity");
                    ("/Registry", Str "Adobe");
                    ("/Supplement", Int 0)]);
       ("/FontDescriptor", Indirect (n + 4));
       ("/Subtype", Name "/CIDFontType2");
       ("/Type", Name "/Font");
       ("/DW", Int 500)]%string;
    Stream CIDToGIDMap_data;
    Stream ToUnicode_data;
    IndirectDict
      [("/Ascent", Int 1000);
       ("/CapHeight", Int 1000);
       ("/Descent", Int (-1));
       ("/Flags", Int 5);
       ("/FontBBox", Array [Int 0; Int 0; Int 500; Int 1000]);
       ("/FontFile2", Indirect (n + 5));
       ("/FontName", Name "/GlyphLessFont");
       ("/ItalicAngle", Int 0);
       ("/StemV", Int 80);
       ("/Type", Name "/FontDescriptor")]%string;
    Stream font ].

(** ** Configuration ([config.py]) *)

(** The Python values that travel through option dictionaries.  A
    dataclass does not check its annotations, so a field holds whatever
    it was given. *)
Inductive pyvalue :=
| PyNone
| PyStr (s : string)
| PyInt (z : Z)
| PyBool (b : bool).

(** A [dict]: keys in insertion order, each key at most once. *)
Definition pydict := list (string * pyvalue).

Fixpoint dict_get {V} (d : list (string * V)) (key : string) : option V :=
  match d with
  | [] => None
  | (k, v) :: d' => if String.eqb k key then Some v else dict_get d' key
  end.

(** [d[key] = v]: an existing key keeps its place, a new one goes last. *)
Fixpoint dict_set {V} (d : list (string * V)) (key : string) (v : V)
  : list (string * V) :=
  match d with
  | [] => [(key, v)]
  | (k, v') :: d' =>
      if String.eqb k key then (k, v) :: d' else (k, v') :: dict_set d' key v
  end.

(** [d.update(other)]. *)
Definition dict_update {V} (d other : list (string * V)) : list (string * V) :=
  fold_left (fun acc kv => dict_set acc (fst kv) (snd kv)) other d.

Definition keys {V} (d : list (string * V)) : list string := map fst d.

Definition ISO_639_3_2 : list (string * string) :=
  [
    ("afr", "af"); ("alb", "sq"); ("bel", "be"); ("bos", "bs");
    ("ces", "cs"); ("chi_sim", "ch"); ("chi_tra", "chinese_cht"); ("cym", "cy");
    ("cze", "cs"); ("dan", "da"); ("deu", "de"); ("dut", "nl");
    ("eng", "en"); ("est", "et"); ("esp", "es"); ("fra", "fr");
    ("gle", "ga"); ("hrv", "hr"); ("hun", "hu"); ("ice", "is");
    ("ind", "id"); ("isl", "is"); ("ita", "it"); ("jpn", "japan");
    ("kor", "korean"); ("lat", "la"); ("lit", "lt"); ("may", "ms");
    ("msa", "ms"); ("nld", "nl"); ("nor", "no"); ("oci", "oc");
    ("pol", "pl"); ("por", "pt"); ("rus", "ru"); ("slk", "sk");
    ("slo", "sk"); ("slv", "sl"); ("spa", "es"); ("swa", "sw");
    ("swe", "sv"); ("tha", "th"); ("tgl", "tl"); ("tur", "tr");
    ("ukr", "uk")
  ]%string.

Record PaddleConfig := {
  text_detection_model_name : pyvalue;
  text_detection_model_dir : pyvalue;
  text_recognition_model_name : pyvalue;
  text_recognition_model_dir : pyvalue
}.

(** [self.__dict__]: the fields in declaration order. *)
Definition instance_dict (self : PaddleConfig) : pydict :=
  [ ("text_detection_model_name", text_detection_model_name self);
    ("text_detection_model_dir", text_detection_model_dir self);
    ("text_recognition_model_name", text_recognition_model_name self);
    ("text_recognition_model_dir", text_recognition_model_dir self) ]%string.

Definition is_None (v : pyvalue) : bool :=
  match v with PyNone => true | _ => false end.

Definition to_ppstructure_kwargs (self : PaddleConfig) : pydict :=
  fold_left
    (fun kwargs kv => if is_None (snd kv) then kwargs
                      else dict_set kwargs (fst kv) (snd kv))
    (instance_dict self) [].

Definition valid_fields : list string :=
  [ "text_detection_model_name"; "text_detection_model_dir";
    "text_recognition_model_name"; "text_recognition_model_dir" ]%string.

(** A keyword argument passed to the constructor, [None] when absent. *)
Definition kwarg (d : pydict) (name : string) : pyvalue :=
  match dict_get d name with Some v => v | None => PyNone end.

Definition from_dict (data : pydict) : PaddleConfig :=
  let filtered_data :=
    filter (fun kv => existsb (String.eqb (fst kv)) valid_fields) data in
  {| text_detection_model_name := kwarg filtered_data "text_detection_model_name";
     text_detection_model_dir := kwarg filtered_data "text_detection_model_dir";
     text_recognition_model_name := kwarg filtered_data "text_recognition_model_name";
     text_recognition_model_dir := kwarg filtered_data "text_recognition_model_dir" |}.

(** ** The arguments of the OCR pipeline ([core/engine.py], [ocr_process]) *)

Inductive lookup_error :=
| KeyError (key : string)
| IndexError.

(** [[ISO_639_3_2[lang] for lang in options.languages]]: the first
    language that is not in the table raises [KeyError]. *)
Fixpoint resolve_languages (langs : list string) : lookup_error + list string :=
  match langs with
  | [] => inr []
  | lang :: rest =>
      match dict_get ISO_639_3_2 lang with
      | None => inl (KeyError lang)
      | Some code =>
          match resolve_languages rest with
          | inl e => inl e
          | inr codes => inr (code :: codes)
          end
      end
  end.

(** The keyword arguments handed to [PPStructureV3]: [languages[0]], the
    four fixed switches, then the fields of [options._paddle_config]. *)
Definition paddle_kwargs (langs : list string) (paddle_config : option PaddleConfig)
  : lookup_error + pydict :=
  match resolve_languages langs with
  | inl e => inl e
  | inr languages =>
      match languages with
      | [] => inl IndexError
      | lang0 :: _ =>
          let kwargs :=
            [ ("lang", PyStr lang0);
              ("use_table_recognition", PyBool true);
              ("use_chart_recognition", PyBool false);
              ("use_formula_recognition", PyBool false);
              ("use_seal_recognition", PyBool false) ]%string in
          match paddle_config with
          | Some config => inr (dict_update kwargs (to_ppstructure_kwargs config))
          | None => inr kwargs
          end
      end
  end.

(** The entries every call starts from, for a resolved language code. *)
Definition base_kwargs (code : string) : pydict :=
  [ ("lang", PyStr code);
    ("use_table_recognition", PyBool true);
    ("use_chart_recognition", PyBool false);
    ("use_formula_recognition", PyBool false);
    ("use_seal_recognition", PyBool false) ]%string.

(** ** Building a result ([core/models.py])

    The layout engine's result, as far as [PaddleResult] reads it.  The
    two functions of the engine's library that the constructor calls,
    [get_sub_regions_ocr_res] (the indices of the words inside a box) and
    [sort_by_xycut] (the reading order of a list of boxes, as indices),
    are parameters. *)
Record OCRResult := {
  rec_boxes : list (list R);
  rec_texts : list pystr;
  rec_labels : list string;
  rec_scores : list R
}.

Record LayoutBlock := {
  block_label : string;
  block_bbox : list R;
  block_content : option string
}.

Record LayoutParsingResultV2 := {
  overall_ocr_res : option OCRResult;
  parsing_res_list : option (list LayoutBlock)
}.

(** A list comprehension whose body may raise: the first failure ends
    it. *)
Fixpoint collect {A B} (f : A -> lookup_error + B) (l : list A)
  : lookup_error + list B :=
  match l with
  | [] => inr []
  | a :: l' =>
      match f a with
      | inl e => inl e
      | inr b =>
          match collect f l' with
          | inl e => inl e
          | inr bs => inr (b :: bs)
          end
      end
  end.

(** [seq[i]] for a non-negative index. *)
Definition getitem {A} (l : list A) (i : nat) : lookup_error + A :=
  match nth_error l i with
  | Some a => inr a
  | None => inl IndexError
  end.

(** The word dictionary built for [box_no]. *)
Definition word_at (ocr : OCRResult) (box_no : nat) : lookup_error + word_data :=
  match getitem (rec_boxes ocr) box_no with
  | inl e => inl e
  | inr b =>
      match getitem (rec_texts ocr) box_no with
      | inl e => inl e
      | inr t =>
          match getitem (rec_labels ocr) box_no with
          | inl e => inl e
          | inr l =>
              match getitem (rec_scores ocr) box_no with
              | inl e => inl e
              | inr s =>
                  inr {| word_text := Some t; word_bbox := Some b;
                         word_label := Some l; word_score := Some s |}
              end
          end
      end
  end.

Section Models.

Variable get_sub_regions_ocr_res : OCRResult -> list R -> list nat.
Variable sort_by_xycut : list (list R) -> string -> list nat.

Definition direction_of (block_label : string) : string :=
  if existsb (String.eqb block_label) ["table"; "seal"; "chart"]%string
  then "vertical"%string else "horizontal"%string.

Definition _extract_ocr_words_for_block (block : LayoutBlock)
    (overall_ocr_res : OCRResult) : lookup_error + list word_data :=
  let ocr_idx_list := get_sub_regions_ocr_res overall_ocr_res (block_bbox block) in
  match collect (word_at overall_ocr_res) ocr_idx_list with
  | inl e => inl e
  | inr [] => inr []
  | inr ocr_words =>
      let direction := direction_of (block_label block) in
      let word_bboxes := map (fun w => get (word_bbox w) []) ocr_words in
      let sorted_indices := sort_by_xycut word_bboxes direction in
      collect (getitem ocr_words) sorted_indices
  end.

(** [PaddleResult(result)]; an exception raised while a block is built
    leaves no result. *)
Definition from_layout_result (result : LayoutParsingResultV2)
  : lookup_error + PaddleResult :=
  match overall_ocr_res result, get (parsing_res_list result) [] with
  | Some ocr, (_ :: _) as parsing =>
      match
        collect
          (fun block =>
             match _extract_ocr_words_for_block block ocr with
             | inl e => inl e
             | inr ocr_words =>
                 inr {| label := block_label block;
                        bbox := block_bbox block;
                        content := get (block_content block) ""%string;
                        ocr_words := ocr_words |}
             end)
          parsing
      with
      | inl e => inl e
      | inr bs => inr {| blocks := bs |}
      end
  | _, _ => inr {| blocks := [] |}
  end.

End Models.

(** ** The worker and the engine ([core/engine.py])

    One worker, seen from its queue: the messages it takes, in order.
    The pipeline's constructor and its [predict] are parameters; [None]
    stands for an exception raised inside them. *)
Record Options := {
  languages : list string;
  _paddle_config : option PaddleConfig
}.

(** What a task finds in its [output_dict] and whether its event was
    set. *)
Inductive output_value :=
| Results (results : list PaddleResult)
| EmptyString.

Record task_outcome := {
  output : output_value;
  event_set : bool
}.

Inductive engine_error :=
| Lookup (e : lookup_error)
| Raised (e : exn).

Section Engine.

Variable get_sub_regions_ocr_res : OCRResult -> list R -> list nat.
Variable sort_by_xycut : list (list R) -> string -> list nat.
Variables (Reader Img : Type).
Variable PPStructureV3 : pydict -> option Reader.
Variable predict : Reader -> Img -> option (list LayoutParsingResultV2).
Variable options : Options.

(** [if reader is None:], build the arguments and the pipeline;
    [None] when building the arguments or the pipeline raises. *)
Definition obtain_reader (reader : option Reader) : option Reader :=
  match reader with
  | Some rd => Some rd
  | None =>
      match paddle_kwargs (languages options) (_paddle_config options) with
      | inl _ => None
      | inr kwargs => PPStructureV3 kwargs
      end
  end.

Definition failed : task_outcome := {| output := EmptyString; event_set := true |}.

(** One message: the [try] body, [except Exception] storing the empty
    string, and [finally] setting the event.  The reader survives a
    failure of [predict]. *)
Definition handle_task (reader : option Reader) (img : Img)
  : option Reader * task_outcome :=
  match obtain_reader reader with
  | None => (reader, failed)
  | Some rd =>
      match predict rd img with
      | None => (Some rd, failed)
      | Some results =>
          match
            collect (from_layout_result get_sub_regions_ocr_res sort_by_xycut) results
          with
          | inl _ => (Some rd, failed)
          | inr rs => (Some rd, {| output := Results rs; event_set := true |})
          end
      end
  end.

(** The loop of [ocr_process] over the messages that arrive.  The second
    component is what is left in the queue when the worker returns, and
    [None] when the messages run out first and the worker waits. *)
Fixpoint serve (reader : option Reader) (queue : list (option Img))
  : list task_outcome * option (list (option Img)) :=
  match queue with
  | [] => ([], None)
  | None :: rest => ([], Some rest)
  | Some img :: rest =>
      let '(reader', outcome) := handle_task reader img in
      let '(outcomes, remaining) := serve reader' rest in
      (outcome :: outcomes, remaining)
  end.

Definition ocr_process (queue : list (option Img))
  : list task_outcome * option (list (option Img)) :=
  serve None queue.

Variable GLYPHLESS_FONT : bytes.

(** [generate_pdf] once [cv.imread] has answered ([None] when it could
    not read the file), served by a worker whose reader is [reader]. *)
Definition generate_pdf (imread : option Img) (reader : option Reader)
    (w : World) : (engine_error + unit) * option Pdf :=
  match imread with
  | None => (inl (Raised (RuntimeError "Failed to load image")), None)
  | Some img =>
      let outcome := snd (handle_task reader img) in
      match output outcome with
      | EmptyString => (inl (Lookup IndexError), None)
      | Results [] => (inl (Lookup IndexError), None)
      | Results (result :: _) =>
          match paddleocr_to_pdf GLYPHLESS_FONT w 1 (Some result) true with
          | (inl e, doc) => (inl (Raised e), doc)
          | (inr _, doc) => (inr tt, doc)
          end
      end
  end.

End Engine.

(** ** Sample inputs

    The word of the end-to-end scenario, [{bbox: [10,10,90,30], text: "Hi"}],
    on a 200 x 100 pixel image at 96 dpi, and a word whose text is a lone
    surrogate, U+D800, which [str] admits and UTF-16 cannot encode. *)
Definition sample_word (text : pystr) (score : R) : word_data :=
  {| word_text := Some text;
     word_bbox := Some [10; 10; 90; 30];
     word_label := Some "text"%string;
     word_score := Some score |}.

Definition sample_result (ws : list word_data) : PaddleResult :=
  {| blocks := [ {| label := "text"; bbox := [0; 0; 200; 100];
                    content := ""; ocr_words := ws |} ] |}.

Definition Hi : pystr := [72; 105]%Z.

(** The same word with its box given right to left. *)
Definition reversed_word : word_data :=
  {| word_text := Some [72; 105]%Z;
     word_bbox := Some [90; 10; 10; 30];
     word_label := None;
     word_score := None |}.

Definition lone_surrogate : pystr := [0xD800]%Z.
Definition sample_scale : R * R := (72 / 96 / 1, 72 / 96 / 1).
Definition sample_height : Z := 100.

(** Two recognised words inside one table block; a matcher that returns
    both and a sorter that reverses. *)
Definition sample_ocr : OCRResult :=
  {| rec_boxes := [[10; 10; 90; 30]; [100; 10; 150; 30]];
     rec_texts := [[72; 105]; [33]]%Z;
     rec_labels := ["text"; "text"]%string;
     rec_scores := [0.99; 0.5] |}.

Definition sample_layout : LayoutParsingResultV2 :=
  {| overall_ocr_res := Some sample_ocr;
     parsing_res_list :=
       Some [{| block_label := "table"; block_bbox := [0; 0; 200; 100];
                block_content := None |}] |}.

Definition sample_match (ocr : OCRResult) (box : list R) : list nat :=
  seq 0 (length (rec_boxes ocr)).

Definition sample_sort (boxes : list (list R)) (direction : string) : list nat :=
  rev (seq 0 (length boxes)).

(** * Properties *)

(** ** UTF-16BE: decoding inverts encoding *)

Module Utf16Facts.

Local Open Scope Z_scope.

Lemma shiftr8 (u : Z) : Z.shiftr u 8 = u / 256.
Proof. rewrite Z.shiftr_div_pow2 by lia. reflexivity. Qed.

Lemma shiftr10 (u : Z) : Z.shiftr u 10 = u / 1024.
Proof. rewrite Z.shiftr_div_pow2 by lia. reflexivity. Qed.

Lemma land_FF (u : Z) : Z.land u 0xFF = u mod 256.
Proof. change 0xFF with (Z.ones 8). rewrite Z.land_ones by lia. reflexivity. Qed.

Lemma land_3FF (u : Z) : Z.land u 0x3FF = u mod 1024.
Proof. change 0x3FF with (Z.ones 10). rewrite Z.land_ones by lia. reflexivity. Qed.

(** The two bytes of a code unit put it back together. *)
Lemma unit_bytes_value (u : Z) :
  Z.shiftr u 8 * 256 + Z.land u 0xFF = u.
Proof.
  rewrite shiftr8, land_FF.
  pose proof (Z.div_mod u 256 ltac:(lia)). lia.
Qed.

Lemma unit_bytes_range (u : Z) :
  0 <= u < 0x10000 ->
  Forall (fun b => 0 <= b < 256) (unit_bytes u).
Proof.
  intros Hu. unfold unit_bytes. rewrite shiftr8, land_FF.
  repeat constructor; try (apply Z.mod_pos_bound; lia).
  - apply Z.div_pos; lia.
  - apply Z.div_lt_upper_bound; lia.
Qed.

Lemma decode_unit (u : Z) (rest : bytes) :
  is_surrogate u = false ->
  decode (unit_bytes u ++ rest) = option_map (cons u) (decode rest).
Proof.
  intros Hs. unfold unit_bytes. cbn [app decode].
  rewrite unit_bytes_value, Hs. reflexivity.
Qed.

Lemma decode_pair (c' : Z) (rest : bytes) :
  0 <= c' < 0x100000 ->
  decode (unit_bytes (0xD800 + Z.shiftr c' 10)
          ++ unit_bytes (0xDC00 + Z.land c' 0x3FF) ++ rest)
  = option_map (cons (0x10000 + c')) (decode rest).
Proof.
  intros Hc. unfold unit_bytes. cbn [app decode].
  rewrite !unit_bytes_value.
  rewrite shiftr10, land_3FF.
  pose proof (Z.div_mod c' 1024 ltac:(lia)) as Hdm.
  pose proof (Z.mod_pos_bound c' 1024 ltac:(lia)) as Hm.
  assert (Hq : 0 <= c' / 1024 < 1024).
  { split; [apply Z.div_pos; lia | apply Z.div_lt_upper_bound; lia]. }
  assert (H1 : is_surrogate (0xD800 + c' / 1024) = true).
  { unfold is_surrogate. apply andb_true_iff. split; [apply Z.leb_le | apply Z.ltb_lt]; lia. }
  assert (H2 : (0xD800 + c' / 1024 <? 0xDC00) = true) by (apply Z.ltb_lt; lia).
  assert (H3 : ((0xDC00 <=? 0xDC00 + c' mod 1024) && (0xDC00 + c' mod 1024 <? 0xE000)) = true).
  { apply andb_true_iff. split; [apply Z.leb_le | apply Z.ltb_lt]; lia. }
  rewrite H1, H2, H3. cbn [negb]. f_equal. f_equal. lia.
Qed.

Lemma decode_encode_codepoint (c : codepoint) (b rest : bytes) :
  valid_codepoint c ->
  encode_codepoint c = Some b ->
  decode (b ++ rest) = option_map (cons c) (decode rest).
Proof.
  unfold valid_codepoint, encode_codepoint. intros Hv He.
  destruct (c <? 0x10000) eqn:Hlt.
  - destruct (is_surrogate c) eqn:Hs; [discriminate|].
    injection He as <-. apply decode_unit; assumption.
  - apply Z.ltb_ge in Hlt. cbv zeta in He.
    assert (Hb : b = unit_bytes (0xD800 + Z.shiftr (c - 0x10000) 10)
                     ++ unit_bytes (0xDC00 + Z.land (c - 0x10000) 0x3FF))
      by congruence.
    subst b. rewrite <- app_assoc. rewrite decode_pair by lia.
    f_equal. f_equal. lia.
Qed.

(** Round trip: what [encode] produces, [decode] reads back. *)
Lemma decode_encode (s : pystr) (b : bytes) :
  valid_str s -> encode s = Some b -> decode b = Some s.
Proof.
  revert b. induction s as [|c s IH]; intros b Hv He.
  - injection He as <-. reflexivity.
  - cbn [encode] in He. inversion Hv as [|? ? Hc Hs]; subst.
    destruct (encode_codepoint c) as [bc|] eqn:Hec; [|discriminate].
    destruct (encode s) as [bs|] eqn:Hes; [|discriminate].
    injection He as <-.
    rewrite (decode_encode_codepoint c bc bs Hc Hec).
    rewrite (IH bs Hs eq_refl). reflexivity.
Qed.

(** [encode] succeeds exactly on the strings without surrogates. *)
Lemma encode_encodable (s : pystr) :
  encodable s = true <-> exists b, encode s = Some b.
Proof.
  induction s as [|c s IH]; cbn [encodable forallb encode].
  - split; [eauto | reflexivity].
  - fold (encodable s). rewrite andb_true_iff, IH. unfold encode_codepoint.
    destruct (c <? 0x10000) eqn:Hlt.
    + destruct (is_surrogate c); cbn [negb]; split.
      * intros [? _]; discriminate.
      * intros [? ?]; discriminate.
      * intros [_ [bs ->]]; eauto.
      * intros [b Hb]. split; [reflexivity|].
        destruct (encode s); [eauto | discriminate].
    + assert (Hs : is_surrogate c = false).
      { unfold is_surrogate. apply Z.ltb_ge in Hlt.
        apply andb_false_iff. right. apply Z.ltb_ge. lia. }
      rewrite Hs. cbn [negb]. split.
      * intros [_ [bs ->]]; eauto.
      * intros [b Hb]. split; [reflexivity|].
        destruct (encode s); [eauto | discriminate].
Qed.

Lemma encode_not_encodable (s : pystr) :
  encodable s = false -> encode s = None.
Proof.
  intros H. destruct (encode s) eqn:He; [|reflexivity].
  assert (encodable s = true) by (apply encode_encodable; eauto).
  congruence.
Qed.

End Utf16Facts.

(** ** One word: the loop body against [word_fragment] *)

Module GenerateFacts.

Section Facts.

Variables (scale : R * R) (height : Z) (boxes : bool).

Lemma extend_nil (cs : CS.t) : extend cs [] = cs.
Proof. destruct cs. unfold extend. cbn. rewrite app_nil_r. reflexivity. Qed.

Lemma extend_extend (cs : CS.t) (l1 l2 : list ContentStreamInstruction) :
  extend (extend cs l1) l2 = extend cs (l1 ++ l2).
Proof. unfold extend. cbn. rewrite app_assoc. reflexivity. Qed.

Lemma append_extend (cs : CS.t) (i : ContentStreamInstruction) :
  CS.append cs i = extend cs [i].
Proof. reflexivity. Qed.

(** The body of the [try] block, case by case. *)
Lemma word_body_spec (mcid : Z) (w : word_data) (cs : CS.t) :
  word_body scale height boxes mcid w cs =
  if word_valid scale height w then
    match Utf16.encode (get (word_text w) []) with
    | Some b =>
        (inr (mcid + 1)%Z,
         extend cs (run_head scale height mcid w ++ run_tail b
                    ++ (if boxes then box_of scale height w else [])))
    | None => (inl UnicodeEncodeError, extend cs (run_head scale height mcid w))
    end
  else (inr mcid, cs).
Proof.
  unfold word_body, word_valid, run_head, box_of, run_tail.
  destruct (get (word_text w) []) as [|c text] eqn:Htext.
  { reflexivity. }
  destruct (get (word_bbox w) []) as [|x1 [|y1 [|x2 [|y2 [|z zs]]]]] eqn:Hbbox;
    try reflexivity.
  unfold raw_angle, font_size_of, box_width_of, snap, word_pts.
  cbn [length Nat.eqb negb orb andb bbox_to_poly lift_option poly_to_quad
       concat app pt_from_pixel nth].
  unfold bind at 1. unfold ret at 1.
  cbn [length Nat.eqb negb orb andb bbox_to_poly lift_option poly_to_quad
       concat app pt_from_pixel nth].
  destruct (Rle_dec _ 0) as [Hw|Hw]; [reflexivity|].
  destruct (Rle_dec _ 0) as [Hf|Hf]; [reflexivity|].
  cbn [orb andb].
  unfold bind, call, call_TJ, ret, debug_box, CS.TJ.
  unfold CS.BT, CS.BDC, CS.Tr, CS.Tm, CS.Tf, CS.Tz, CS.EMC, CS.ET,
         CS.q, CS.cm, CS.re, CS.RG, CS.s, CS.Q, Operator.
  rewrite !append_extend, !extend_extend.
  destruct (Utf16.encode (c :: text)) as [b|].
  - destruct boxes; unfold bind, call, ret;
      rewrite ?append_extend, ?extend_extend; reflexivity.
  - reflexivity.
Qed.

Lemma process_word_spec (cs : CS.t) (mcid : Z) (w : word_data) :
  process_word scale height boxes (cs, mcid) w =
  (extend cs (fst (word_fragment scale height boxes mcid w)),
   snd (word_fragment scale height boxes mcid w)).
Proof.
  unfold process_word, word_fragment. rewrite word_body_spec.
  destruct (word_valid scale height w).
  - destruct (Utf16.encode _); reflexivity.
  - cbn [fst snd]. rewrite extend_nil. reflexivity.
Qed.

(** The counter after one word: advanced exactly when it is emitted. *)
Lemma word_fragment_counter (mcid : Z) (w : word_data) :
  snd (word_fragment scale height boxes mcid w) =
  if word_emitted scale height w then (mcid + 1)%Z else mcid.
Proof.
  unfold word_fragment, word_emitted.
  destruct (word_valid scale height w); [|reflexivity].
  cbn [andb].
  destruct (Utf16.encodable _) eqn:He.
  - apply Utf16Facts.encode_encodable in He as [b ->]. reflexivity.
  - rewrite (Utf16Facts.encode_not_encodable _ He). reflexivity.
Qed.

Lemma emitted_count_cons (w : word_data) (ws : list word_data) :
  emitted_count scale height (w :: ws) =
  ((if word_emitted scale height w then 1 else 0) + emitted_count scale height ws)%Z.
Proof.
  unfold emitted_count. cbn [filter].
  destruct (word_emitted scale height w); cbn [length]; lia.
Qed.

Lemma fragments_app (mcid : Z) (ws1 ws2 : list word_data) :
  fragments scale height boxes mcid (ws1 ++ ws2) =
  fragments scale height boxes mcid ws1
  ++ fragments scale height boxes (mcid + emitted_count scale height ws1)%Z ws2.
Proof.
  revert mcid. induction ws1 as [|w ws1 IH]; intros mcid.
  - cbn. f_equal. unfold emitted_count. cbn. lia.
  - cbn [app fragments].
    pose proof (word_fragment_counter mcid w) as Hc.
    destruct (word_fragment scale height boxes mcid w) as [f k'].
    cbn [snd] in Hc. subst k'. rewrite IH, <- app_assoc. do 3 f_equal.
    rewrite emitted_count_cons.
    destruct (word_emitted scale height w); lia.
Qed.

Lemma words_loop_spec (ws : list word_data) (cs : CS.t) (mcid : Z) :
  fold_left (process_word scale height boxes) ws (cs, mcid) =
  (extend cs (fragments scale height boxes mcid ws),
   (mcid + emitted_count scale height ws)%Z).
Proof.
  revert cs mcid. induction ws as [|w ws IH]; intros cs mcid.
  - cbn. rewrite extend_nil. f_equal. unfold emitted_count. cbn. lia.
  - cbn [fold_left fragments]. rewrite process_word_spec.
    pose proof (word_fragment_counter mcid w) as Hc.
    destruct (word_fragment scale height boxes mcid w) as [f k'].
    cbn [fst snd] in *. subst k'. rewrite IH, extend_extend. f_equal.
    rewrite emitted_count_cons.
    destruct (word_emitted scale height w); lia.
Qed.

Lemma process_block_spec (b : PaddleBlock) (cs : CS.t) (mcid : Z) :
  process_block scale height boxes (cs, mcid) b =
  fold_left (process_word scale height boxes) (ocr_words b) (cs, mcid).
Proof. unfold process_block. destruct (ocr_words b); reflexivity. Qed.

Lemma blocks_loop_spec (bs : list PaddleBlock) (cs : CS.t) (mcid : Z) :
  fold_left (process_block scale height boxes) bs (cs, mcid) =
  (extend cs (fragments scale height boxes mcid (flat_map ocr_words bs)),
   (mcid + emitted_count scale height (flat_map ocr_words bs))%Z).
Proof.
  revert cs mcid. induction bs as [|b bs IH]; intros cs mcid.
  - cbn. rewrite extend_nil. f_equal. unfold emitted_count. cbn. lia.
  - cbn [fold_left flat_map].
    rewrite process_block_spec, words_loop_spec, IH, extend_extend.
    rewrite fragments_app. f_equal.
    unfold emitted_count. rewrite filter_app, length_app. lia.
Qed.

End Facts.

(** The whole stream: [q], the fragments of all words, [Q]. *)
Lemma generate_spec (r : option PaddleResult) (scale : R * R) (height : Z)
    (boxes : bool) :
  generate_text_content_stream r scale height boxes =
  instr [] "q" :: fragments scale height boxes 0 (all_words r) ++ [instr [] "Q"].
Proof.
  unfold generate_text_content_stream, all_words.
  destruct r as [[bs]|]; [|reflexivity].
  cbn [blocks]. destruct bs as [|b bs]; [reflexivity|].
  rewrite blocks_loop_spec. reflexivity.
Qed.

End GenerateFacts.

Import GenerateFacts.

(** ** Geometry of an axis-aligned word box *)

Module GeometryFacts.

Section Facts.

Variables (sx sy : R) (height : Z).

Lemma hypot_0_r (a : R) : hypot a 0 = Rabs a.
Proof.
  unfold hypot. replace (a * a + 0 * 0) with (Rsqr a) by (unfold Rsqr; ring).
  apply sqrt_Rsqr_abs.
Qed.

Lemma hypot_0_l (a : R) : hypot 0 a = Rabs a.
Proof.
  unfold hypot. replace (0 * 0 + a * a) with (Rsqr a) by (unfold Rsqr; ring).
  apply sqrt_Rsqr_abs.
Qed.

Lemma word_pts_bbox (x1 y1 x2 y2 : R) :
  word_pts (sx, sy) height [x1; y1; x2; y2] =
  [x1 * sx; (IZR height - y1) * sy; x2 * sx; (IZR height - y1) * sy;
   x2 * sx; (IZR height - y2) * sy; x1 * sx; (IZR height - y2) * sy].
Proof. reflexivity. Qed.

(** The run width is the scaled pixel width. *)
Lemma box_width_bbox (x1 y1 x2 y2 : R) :
  box_width_of (sx, sy) height [x1; y1; x2; y2] = Rabs ((x2 - x1) * sx).
Proof.
  unfold box_width_of. rewrite word_pts_bbox. cbn [nth].
  replace ((IZR height - y2) * sy - (IZR height - y2) * sy) with 0 by ring.
  rewrite hypot_0_r, Rplus_0_r. f_equal. ring.
Qed.

(** The font size is the scaled pixel height. *)
Lemma font_size_bbox (x1 y1 x2 y2 : R) :
  font_size_of (sx, sy) height [x1; y1; x2; y2] = Rabs ((y2 - y1) * sy).
Proof.
  unfold font_size_of. rewrite word_pts_bbox. cbn [nth].
  replace (x1 * sx - x1 * sx) with 0 by ring.
  rewrite hypot_0_l.
  replace ((IZR height - y1) * sy - (IZR height - y2) * sy) with ((y2 - y1) * sy) by ring.
  reflexivity.
Qed.

(** A box that runs left to right has rotation zero. *)
Lemma raw_angle_bbox (x1 y1 x2 y2 : R) :
  0 < (x2 - x1) * sx ->
  raw_angle (sx, sy) height [x1; y1; x2; y2] = 0.
Proof.
  intros Hpos. unfold raw_angle. rewrite word_pts_bbox. cbn [nth].
  replace ((IZR height - y2) * sy - (IZR height - y2) * sy) with 0 by ring.
  unfold atan2. destruct (Rlt_dec 0 (x2 * sx - x1 * sx)) as [_|Hn].
  - unfold Rdiv. rewrite Rmult_0_l, atan_0. ring.
  - exfalso. apply Hn. lra.
Qed.

(** Validity of a word with a four-element box, in pixel terms. *)
Lemma word_valid_bbox (w : word_data) (c : codepoint) (text : pystr)
    (x1 y1 x2 y2 : R) :
  word_text w = Some (c :: text) ->
  word_bbox w = Some [x1; y1; x2; y2] ->
  (x2 - x1) * sx <> 0 -> (y2 - y1) * sy <> 0 ->
  word_valid (sx, sy) height w = true.
Proof.
  intros Ht Hb Hx Hy. unfold word_valid. rewrite Ht, Hb. cbn [get length Nat.eqb negb andb].
  rewrite box_width_bbox, font_size_bbox.
  pose proof (Rabs_pos_lt _ Hx). pose proof (Rabs_pos_lt _ Hy).
  destruct (Rle_dec _ 0); [lra|]. destruct (Rle_dec _ 0); [lra|]. reflexivity.
Qed.

End Facts.

End GeometryFacts.

Import GeometryFacts.

(** ** C6: the blank page *)

(** C6. When the OCR result is missing or has no blocks, the stream is
    exactly [q], [Q]: one save/restore pair, and no [BT] instruction. *)
Theorem blank_page_stream (r : option PaddleResult) (scale : R * R)
    (height : Z) (boxes : bool) :
  (r = None \/ exists result, r = Some result /\ blocks result = []) ->
  generate_text_content_stream r scale height boxes
    = [instr [] "q"; instr [] "Q"]
  /\ filter (is_op "BT") (generate_text_content_stream r scale height boxes) = [].
Proof.
  intros [-> | [result [-> Hb]]].
  - split; reflexivity.
  - unfold generate_text_content_stream. rewrite Hb. split; reflexivity.
Qed.

Lemma blank_page_stream_witness :
  generate_text_content_stream (Some {| blocks := [] |}) (1, 1) 100 true
    = [instr [] "q"; instr [] "Q"]
  /\ filter (is_op "BT")
       (generate_text_content_stream (Some {| blocks := [] |}) (1, 1) 100 true) = [].
Proof.
  apply (blank_page_stream (Some {| blocks := [] |}) (1, 1) 100 true).
  right. exists {| blocks := [] |}. split; reflexivity.
Defined.

(** ** C10: the confidence score is never used *)

Lemma word_fragment_erase_score (scale : R * R) (height : Z) (boxes : bool)
    (mcid : Z) (w : word_data) :
  word_fragment scale height boxes mcid (erase_score w)
  = word_fragment scale height boxes mcid w.
Proof. reflexivity. Qed.

Lemma fragments_erase_score (scale : R * R) (height : Z) (boxes : bool)
    (mcid : Z) (ws : list word_data) :
  fragments scale height boxes mcid (map erase_score ws)
  = fragments scale height boxes mcid ws.
Proof.
  revert mcid. induction ws as [|w ws IH]; intros mcid; [reflexivity|].
  cbn [map fragments]. rewrite word_fragment_erase_score.
  destruct (word_fragment scale height boxes mcid w) as [f k].
  rewrite IH. reflexivity.
Qed.

Lemma all_words_erase_scores (r : PaddleResult) :
  all_words (Some (erase_scores r)) = map erase_score (all_words (Some r)).
Proof.
  unfold all_words, erase_scores. cbn [blocks].
  induction (blocks r) as [|b bs IH]; [reflexivity|].
  cbn [map flat_map]. rewrite IH, map_app. reflexivity.
Qed.

Lemma generate_erase_scores (r : PaddleResult) (scale : R * R) (height : Z)
    (boxes : bool) :
  generate_text_content_stream (Some (erase_scores r)) scale height boxes
  = generate_text_content_stream (Some r) scale height boxes.
Proof.
  rewrite !generate_spec, all_words_erase_scores, fragments_erase_score.
  reflexivity.
Qed.

(** C10. Two results that differ only in the [score] fields of their
    words give the same instruction sequence. *)
Theorem score_never_used (r1 r2 : PaddleResult) (scale : R * R)
    (height : Z) (boxes : bool) :
  erase_scores r1 = erase_scores r2 ->
  generate_text_content_stream (Some r1) scale height boxes
  = generate_text_content_stream (Some r2) scale height boxes.
Proof.
  intros H.
  rewrite <- (generate_erase_scores r1), <- (generate_erase_scores r2), H.
  reflexivity.
Qed.

Lemma score_never_used_witness :
  erase_scores (sample_result [sample_word Hi 0.99])
  = erase_scores (sample_result [sample_word Hi 0.01])
  /\ generate_text_content_stream (Some (sample_result [sample_word Hi 0.99]))
       sample_scale sample_height true
     = generate_text_content_stream (Some (sample_result [sample_word Hi 0.01]))
         sample_scale sample_height true.
Proof.
  split; [reflexivity|].
  apply (score_never_used (sample_result [sample_word Hi 0.99])
           (sample_result [sample_word Hi 0.01]) sample_scale sample_height true).
  reflexivity.
Defined.

(** ** C1: the [TJ] operands spell the transcript *)

Lemma TJ_operands_app (l1 l2 : list ContentStreamInstruction) :
  TJ_operands (l1 ++ l2) = TJ_operands l1 ++ TJ_operands l2.
Proof. apply flat_map_app. Qed.

Lemma TJ_operands_fragment (scale : R * R) (height : Z) (boxes : bool)
    (mcid : Z) (w : word_data) :
  map Some (TJ_operands (fst (word_fragment scale height boxes mcid w)))
  = if word_emitted scale height w
    then [Utf16.encode (get (word_text w) [])] else [].
Proof.
  unfold word_fragment, word_emitted.
  destruct (word_valid scale height w); [|reflexivity].
  cbn [andb]. destruct (Utf16.encodable _) eqn:He.
  - apply Utf16Facts.encode_encodable in He as [b ->].
    destruct boxes; reflexivity.
  - rewrite (Utf16Facts.encode_not_encodable _ He). reflexivity.
Qed.

Lemma TJ_operands_fragments (scale : R * R) (height : Z) (boxes : bool)
    (ws : list word_data) (mcid : Z) :
  map Some (TJ_operands (fragments scale height boxes mcid ws))
  = map (fun w => Utf16.encode (get (word_text w) []))
        (filter (word_emitted scale height) ws).
Proof.
  revert mcid. induction ws as [|w ws IH]; intros mcid; [reflexivity|].
  cbn [fragments filter].
  pose proof (TJ_operands_fragment scale height boxes mcid w) as Hf.
  destruct (word_fragment scale height boxes mcid w) as [f k]. cbn [fst] in Hf.
  rewrite TJ_operands_app, map_app, Hf, IH.
  destruct (word_emitted scale height w); reflexivity.
Qed.

Lemma decode_all_encoded (ss : list pystr) (bs : list bytes) :
  Forall valid_str ss ->
  map Some bs = map Utf16.encode ss ->
  decode_all bs = Some (concat ss).
Proof.
  revert bs. induction ss as [|s ss IH]; intros [|b bs] Hv He; try discriminate.
  - reflexivity.
  - cbn [map] in He. injection He as Hb Hbs.
    inversion Hv as [|? ? Hs Hss]; subst.
    cbn [decode_all concat].
    rewrite (Utf16Facts.decode_encode s b Hs (eq_sym Hb)), (IH bs Hss Hbs).
    reflexivity.
Qed.

(** C1. The [TJ] operands are, in order, the UTF-16BE encodings of the
    texts of the emitted words (blocks in order, words in block order),
    and decoding them and concatenating the results, with no separator,
    gives back the concatenation of those texts. *)
Theorem TJ_operands_transcript (r : option PaddleResult) (scale : R * R)
    (height : Z) (boxes : bool) :
  Forall (fun w => valid_str (get (word_text w) [])) (all_words r) ->
  let out := generate_text_content_stream r scale height boxes in
  let emitted := filter (word_emitted scale height) (all_words r) in
  map Some (TJ_operands out)
    = map (fun w => Utf16.encode (get (word_text w) [])) emitted
  /\ decode_all (TJ_operands out)
    = Some (concat (map (fun w => get (word_text w) []) emitted)).
Proof.
  intros Hv out emitted.
  assert (Hops : map Some (TJ_operands out)
                 = map (fun w => Utf16.encode (get (word_text w) [])) emitted).
  { unfold out. rewrite generate_spec.
    change (instr [] "q" :: ?l) with ([instr [] "q"] ++ l).
    rewrite !TJ_operands_app.
    change (TJ_operands [instr [] "q"]) with (@nil bytes).
    change (TJ_operands [instr [] "Q"]) with (@nil bytes).
    cbn [app]. rewrite app_nil_r. apply TJ_operands_fragments. }
  split; [exact Hops|].
  apply decode_all_encoded.
  - apply Forall_map. apply Forall_forall. intros w Hw.
    unfold emitted in Hw. apply filter_In in Hw as [Hw _].
    rewrite Forall_forall in Hv. apply Hv, Hw.
  - rewrite Hops, map_map. reflexivity.
Qed.

Lemma TJ_operands_transcript_witness :
  let r := Some (sample_result [sample_word Hi 0.99]) in
  let out := generate_text_content_stream r sample_scale sample_height true in
  let emitted := filter (word_emitted sample_scale sample_height) (all_words r) in
  Forall (fun w => valid_str (get (word_text w) [])) (all_words r)
  /\ map Some (TJ_operands out)
     = map (fun w => Utf16.encode (get (word_text w) [])) emitted
  /\ decode_all (TJ_operands out)
     = Some (concat (map (fun w => get (word_text w) []) emitted)).
Proof.
  assert (Hv : Forall (fun w => valid_str (get (word_text w) []))
                 (all_words (Some (sample_result [sample_word Hi 0.99])))).
  { repeat constructor; unfold valid_codepoint; lia. }
  split; [exact Hv|].
  exact (TJ_operands_transcript (Some (sample_result [sample_word Hi 0.99]))
           sample_scale sample_height true Hv).
Defined.

(** ** C2: skipped words and the marked-content ids *)

Section Runs.

Variables (scale : R * R) (height : Z) (boxes : bool).

(** A complete run closes at its [ET]; the debug box after it belongs to
    no run. *)
Lemma runs_from_complete (cur : option (list ContentStreamInstruction))
    (mcid : Z) (w : word_data) (b : bytes) (rest : list ContentStreamInstruction) :
  runs_from cur (run_head scale height mcid w ++ run_tail b
                 ++ (if boxes then box_of scale height w else []) ++ rest)
  = (run_head scale height mcid w ++ run_tail b) :: runs_from None rest.
Proof. destruct boxes; reflexivity. Qed.

(** An unterminated run stays open. *)
Lemma runs_from_head (cur : option (list ContentStreamInstruction))
    (mcid : Z) (w : word_data) (rest : list ContentStreamInstruction) :
  runs_from cur (run_head scale height mcid w ++ rest)
  = runs_from (Some (run_head scale height mcid w)) rest.
Proof. reflexivity. Qed.

Lemma runs_from_fragments (ws : list word_data) (mcid : Z)
    (cur : option (list ContentStreamInstruction)) :
  runs_from cur (fragments scale height boxes mcid ws ++ [instr [] "Q"])
  = complete_runs scale height mcid ws.
Proof.
  revert mcid cur. induction ws as [|w ws IH]; intros mcid cur.
  - destruct cur; reflexivity.
  - cbn [fragments complete_runs]. unfold word_fragment.
    destruct (word_valid scale height w).
    + destruct (Utf16.encode _) as [b|]; cbv beta iota.
      * rewrite <- !app_assoc, runs_from_complete, IH. reflexivity.
      * rewrite <- app_assoc, runs_from_head, IH. reflexivity.
    + cbn [app]. apply IH.
Qed.

Lemma MCIDs_complete_run (mcid : Z) (w : word_data) (b : bytes) :
  MCIDs (run_head scale height mcid w ++ run_tail b) = [mcid].
Proof. reflexivity. Qed.

Lemma MCIDs_complete_runs (ws : list word_data) (mcid : Z) :
  map MCIDs (complete_runs scale height mcid ws)
  = map (fun i => [(mcid + Z.of_nat i)%Z])
        (seq 0 (length (complete_runs scale height mcid ws))).
Proof.
  revert mcid. induction ws as [|w ws IH]; intros mcid; [reflexivity|].
  cbn [complete_runs].
  destruct (word_valid scale height w); [|apply IH].
  destruct (Utf16.encode _) as [b|]; [|apply IH].
  cbn [map length seq]. rewrite MCIDs_complete_run, IH, <- seq_shift, map_map.
  f_equal; [f_equal; lia|].
  apply map_ext. intros i. f_equal. lia.
Qed.

Lemma length_complete_runs (ws : list word_data) (mcid : Z) :
  length (complete_runs scale height mcid ws)
  = length (filter (word_emitted scale height) ws).
Proof.
  revert mcid. induction ws as [|w ws IH]; intros mcid; [reflexivity|].
  cbn [complete_runs filter]. unfold word_emitted.
  destruct (word_valid scale height w); [|apply IH].
  cbn [andb]. destruct (Utf16.encodable _) eqn:He.
  - apply Utf16Facts.encode_encodable in He as [b ->].
    cbn [length]. f_equal. apply IH.
  - rewrite (Utf16Facts.encode_not_encodable _ He). apply IH.
Qed.

Lemma runs_generate (r : option PaddleResult) :
  runs (generate_text_content_stream r scale height boxes)
  = complete_runs scale height 0 (all_words r).
Proof.
  rewrite generate_spec. unfold runs.
  change (runs_from None (instr [] "q" :: ?l)) with (runs_from None l).
  apply runs_from_fragments.
Qed.

(** A word that fails the invariant leaves builder and counter alone. *)
Lemma process_word_skip (cs : CS.t) (mcid : Z) (w : word_data) :
  word_valid scale height w = false ->
  process_word scale height boxes (cs, mcid) w = (cs, mcid).
Proof.
  intros Hv. rewrite process_word_spec. unfold word_fragment. rewrite Hv.
  cbn [fst snd]. rewrite extend_nil. reflexivity.
Qed.

Lemma word_valid_false (w : word_data) :
  get (word_text w) [] = []
  \/ length (get (word_bbox w) []) <> 4%nat
  \/ font_size_of scale height (get (word_bbox w) []) <= 0
  \/ box_width_of scale height (get (word_bbox w) []) <= 0 ->
  word_valid scale height w = false.
Proof.
  unfold word_valid. intros [Ht | [Hb | [Hf | Hw]]].
  - rewrite Ht. reflexivity.
  - apply Nat.eqb_neq in Hb. rewrite Hb, andb_false_r. reflexivity.
  - destruct (Rle_dec (font_size_of _ _ _) 0); [|contradiction].
    apply andb_false_r.
  - destruct (Rle_dec (box_width_of _ _ _) 0); [|contradiction].
    rewrite andb_false_r. reflexivity.
Qed.

End Runs.

(** C2. A word with empty text, a bbox that does not have four elements,
    or a computed font size or run width that is not positive, appends
    nothing and leaves the marked-content counter as it was.  Every
    [BT ... ET] run of the stream carries exactly one [BDC], and the ids
    of the runs are 0, 1, 2, ... in stream order, one per emitted word. *)
Theorem skipped_words_and_mcids (scale : R * R) (height : Z) (boxes : bool)
    (cs : CS.t) (mcid : Z) (w : word_data) (r : option PaddleResult) :
  (get (word_text w) [] = []
   \/ length (get (word_bbox w) []) <> 4%nat
   \/ font_size_of scale height (get (word_bbox w) []) <= 0
   \/ box_width_of scale height (get (word_bbox w) []) <= 0 ->
   process_word scale height boxes (cs, mcid) w = (cs, mcid))
  /\ (let out := generate_text_content_stream r scale height boxes in
      map MCIDs (runs out) = map (fun i => [Z.of_nat i]) (seq 0 (length (runs out)))
      /\ length (runs out)
         = length (filter (word_emitted scale height) (all_words r))).
Proof.
  split.
  - intros H. apply process_word_skip, word_valid_false, H.
  - cbn zeta. rewrite runs_generate. split.
    + apply MCIDs_complete_runs.
    + apply length_complete_runs.
Qed.

Lemma skipped_words_and_mcids_witness :
  let w := sample_word [] 0.99 in
  let cs := CS.q CS.init in
  get (word_text w) [] = []
  /\ process_word sample_scale sample_height true (cs, 0%Z) w = (cs, 0%Z).
Proof.
  split; [reflexivity|].
  apply (proj1 (skipped_words_and_mcids sample_scale sample_height true
                  (CS.q CS.init) 0%Z (sample_word [] 0.99) None)).
  left. reflexivity.
Defined.

(** ** C4 and C5: the text matrix and the horizontal stretch of a run *)

Section RunGeometry.

Variables (scale : R * R) (height : Z) (boxes : bool).

(** Every valid word appends its run head, whatever follows it. *)
Lemma process_word_valid (cs : CS.t) (mcid : Z) (w : word_data) :
  word_valid scale height w = true ->
  exists rest mcid',
    process_word scale height boxes (cs, mcid) w
      = (extend cs (run_head scale height mcid w ++ rest), mcid')
    /\ filter (is_op "Tm") rest = []
    /\ filter (is_op "Tz") rest = [].
Proof.
  intros Hv. rewrite process_word_spec. unfold word_fragment. rewrite Hv.
  destruct (Utf16.encode _) as [b|].
  - eexists. eexists. split; [reflexivity|]. destruct boxes; split; reflexivity.
  - exists [], mcid. cbn [fst snd]. rewrite app_nil_r.
    split; [reflexivity|]. split; reflexivity.
Qed.

Lemma snap_small (a : R) : Rabs a < ANGLE_THRESHOLD_RAD -> snap a = 0.
Proof. intros H. unfold snap. destruct (Rlt_dec _ _); [reflexivity|contradiction]. Qed.

End RunGeometry.

(** C4. When the rotation computed from the transformed quad is below
    the threshold in absolute value, the run's [Tm] has (a, b, c, d) equal
    to (1, 0, 0, 1) exactly; (e, f) is the transformed bottom-left corner. *)
Theorem angle_snap_Tm (scale : R * R) (height : Z) (boxes : bool)
    (cs : CS.t) (mcid : Z) (w : word_data) :
  word_valid scale height w = true ->
  Rabs (raw_angle scale height (get (word_bbox w) [])) < ANGLE_THRESHOLD_RAD ->
  let p := word_pts scale height (get (word_bbox w) []) in
  exists run mcid',
    process_word scale height boxes (cs, mcid) w = (extend cs run, mcid')
    /\ filter (is_op "Tm") run
       = [instr [Real 1; Real 0; Real 0; Real 1; Real (nth 6 p 0); Real (nth 7 p 0)]
                "Tm"].
Proof.
  intros Hv Ha p.
  destruct (process_word_valid scale height boxes cs mcid w Hv)
    as (rest & mcid' & Hstep & HTm & _).
  exists (run_head scale height mcid w ++ rest), mcid'.
  split; [exact Hstep|].
  rewrite filter_app, HTm, app_nil_r.
  unfold run_head. rewrite (snap_small _ Ha), cos_0, sin_0, Ropp_0.
  reflexivity.
Qed.

(** C5. The operand of a run's [Tz] is
    [100 * run_width / character_count / font_size * CHAR_ASPECT], with
    [run_width] the distance from the transformed bottom-right corner to
    the bottom-left one and [font_size] the distance from the top-left
    corner to the bottom-left one. *)
Theorem stretch_Tz (sx sy : R) (height : Z) (boxes : bool)
    (cs : CS.t) (mcid : Z) (w : word_data) (text : pystr) (x1 y1 x2 y2 : R) :
  word_text w = Some text ->
  word_bbox w = Some [x1; y1; x2; y2] ->
  word_valid (sx, sy) height w = true ->
  let h := IZR height in
  let top_left := (x1 * sx, (h - y1) * sy) in
  let bottom_left := (x1 * sx, (h - y2) * sy) in
  let bottom_right := (x2 * sx, (h - y2) * sy) in
  let run_width := dist bottom_right bottom_left in
  let font_size := dist top_left bottom_left in
  let character_count := INR (length text) in
  exists run mcid',
    process_word (sx, sy) height boxes (cs, mcid) w = (extend cs run, mcid')
    /\ filter (is_op "Tz") run
       = [instr [Real (100 * run_width / character_count / font_size
                       * IZR CHAR_ASPECT)] "Tz"].
Proof.
  intros Ht Hb Hv h top_left bottom_left bottom_right run_width font_size
         character_count.
  destruct (process_word_valid (sx, sy) height boxes cs mcid w Hv)
    as (rest & mcid' & Hstep & _ & HTz).
  exists (run_head (sx, sy) height mcid w ++ rest), mcid'.
  split; [exact Hstep|].
  rewrite filter_app, HTz, app_nil_r.
  unfold run_head. rewrite Ht, Hb. cbn [get].
  unfold box_width_of, font_size_of. rewrite word_pts_bbox. cbn [nth].
  rewrite Rplus_0_r. reflexivity.
Qed.

(** ** C7: the coordinate round trip *)

Lemma pixel_from_pt_from_pixel (quad : list R) (sx sy h : R) :
  sx <> 0 -> sy <> 0 -> Nat.even (length quad) = true ->
  pixel_from_pt (pt_from_pixel quad (sx, sy) h) (sx, sy) h = quad.
Proof.
  intros Hx Hy. revert quad.
  fix IH 1. intros [|x [|y rest]] He.
  - reflexivity.
  - discriminate.
  - cbn [pt_from_pixel pixel_from_pt fst snd]. rewrite (IH rest He).
    f_equal; [field; assumption|]. f_equal. field. assumption.
Qed.

(** C7. For a pixel bbox with [x2 > x1] and [y2 > y1], positive scales
    and page height, mapping the corners of the quad to points and back
    through [x / scale_x] and [height - y / scale_y] returns the corners. *)
Theorem coordinate_round_trip (x1 y1 x2 y2 sx sy h : R) :
  x2 > x1 -> y2 > y1 -> sx > 0 -> sy > 0 -> h > 0 ->
  exists poly,
    bbox_to_poly [x1; y1; x2; y2] = Some poly
    /\ pixel_from_pt (pt_from_pixel (poly_to_quad poly) (sx, sy) h) (sx, sy) h
       = [x1; y1; x2; y1; x2; y2; x1; y2].
Proof.
  intros _ _ Hx Hy _. eexists. split; [reflexivity|].
  rewrite pixel_from_pt_from_pixel; [reflexivity | lra | lra | reflexivity].
Qed.

Lemma coordinate_round_trip_witness :
  exists poly,
    bbox_to_poly [10; 10; 90; 30] = Some poly
    /\ pixel_from_pt (pt_from_pixel (poly_to_quad poly) (3/4, 3/4) 100) (3/4, 3/4) 100
       = [10; 10; 90; 10; 90; 30; 10; 30].
Proof.
  apply (coordinate_round_trip 10 10 90 30 (3/4) (3/4) 100); lra.
Defined.

(** The sample word is valid and lies flat. *)
Lemma sample_word_valid (c : Z) (text : list Z) (score : R) :
  word_valid sample_scale sample_height (sample_word (c :: text) score) = true.
Proof.
  apply (word_valid_bbox _ _ _ _ c text 10 10 90 30); try reflexivity; lra.
Qed.

Lemma sample_word_angle (text : pystr) (score : R) :
  raw_angle sample_scale sample_height
    (get (word_bbox (sample_word text score)) []) = 0.
Proof. apply raw_angle_bbox. lra. Qed.

Lemma angle_snap_Tm_witness :
  let w := sample_word Hi 0.99 in
  let p := word_pts sample_scale sample_height (get (word_bbox w) []) in
  let cs := CS.q CS.init in
  word_valid sample_scale sample_height w = true
  /\ Rabs (raw_angle sample_scale sample_height (get (word_bbox w) []))
     < ANGLE_THRESHOLD_RAD
  /\ exists run mcid',
       process_word sample_scale sample_height true (cs, 0%Z) w
         = (extend cs run, mcid')
       /\ filter (is_op "Tm") run
          = [instr [Real 1; Real 0; Real 0; Real 1;
                    Real (nth 6 p 0); Real (nth 7 p 0)] "Tm"].
Proof.
  assert (Hv : word_valid sample_scale sample_height (sample_word Hi 0.99) = true)
    by apply sample_word_valid.
  assert (Ha : Rabs (raw_angle sample_scale sample_height
                       (get (word_bbox (sample_word Hi 0.99)) []))
               < ANGLE_THRESHOLD_RAD).
  { rewrite sample_word_angle, Rabs_R0. unfold ANGLE_THRESHOLD_RAD. lra. }
  split; [exact Hv|]. split; [exact Ha|].
  exact (angle_snap_Tm sample_scale sample_height true (CS.q CS.init) 0%Z
           (sample_word Hi 0.99) Hv Ha).
Defined.

Lemma stretch_Tz_witness :
  let w := sample_word Hi 0.99 in
  let cs := CS.q CS.init in
  let run_width := dist (90 * (72 / 96 / 1), (100 - 30) * (72 / 96 / 1))
                        (10 * (72 / 96 / 1), (100 - 30) * (72 / 96 / 1)) in
  let font_size := dist (10 * (72 / 96 / 1), (100 - 10) * (72 / 96 / 1))
                        (10 * (72 / 96 / 1), (100 - 30) * (72 / 96 / 1)) in
  word_valid sample_scale sample_height w = true
  /\ exists run mcid',
       process_word sample_scale sample_height true (cs, 0%Z) w
         = (extend cs run, mcid')
       /\ filter (is_op "Tz") run
          = [instr [Real (100 * run_width / INR 2 / font_size * IZR CHAR_ASPECT)]
                   "Tz"].
Proof.
  assert (Hv : word_valid sample_scale sample_height (sample_word Hi 0.99) = true)
    by apply sample_word_valid.
  split; [exact Hv|].
  exact (stretch_Tz (72 / 96 / 1) (72 / 96 / 1) sample_height true
           (CS.q CS.init) 0%Z (sample_word Hi 0.99) Hi 10 10 90 30
           eq_refl eq_refl Hv).
Defined.

(** ** C3: the CID-to-glyph map *)

Module FontFacts.

Lemma length_bytes_repeat (b : bytes) (n : nat) :
  length (bytes_repeat b n) = (length b * n)%nat.
Proof.
  induction n as [|n IH]; cbn [bytes_repeat].
  - rewrite Nat.mul_0_r. reflexivity.
  - rewrite length_app, IH, Nat.mul_succ_r. lia.
Qed.

(** Every two-byte entry of the repeated table is 0x00 0x01. *)
Lemma nth_bytes_repeat (n i : nat) :
  (i < n)%nat ->
  nth (2 * i) (bytes_repeat [0; 1]%Z n) 0%Z = 0%Z
  /\ nth (2 * i + 1) (bytes_repeat [0; 1]%Z n) 0%Z = 1%Z.
Proof.
  revert i. induction n as [|n IH]; intros i Hi; [lia|].
  destruct i as [|i].
  - split; reflexivity.
  - replace (2 * S i)%nat with (S (S (2 * i))) by lia.
    replace (S (S (2 * i)) + 1)%nat with (S (S (2 * i + 1))) by lia.
    cbn [bytes_repeat app nth]. apply IH. lia.
Qed.

Lemma GID_of_CIDToGIDMap (cid : Z) :
  (0 <= cid < 65536)%Z -> GID_of CIDToGIDMap_data cid = 1%Z.
Proof.
  intros Hc. unfold GID_of, CIDToGIDMap_data.
  replace (Z.to_nat (2 * cid)) with (2 * Z.to_nat cid)%nat by lia.
  replace (Z.to_nat (2 * cid + 1)) with (2 * Z.to_nat cid + 1)%nat by lia.
  destruct (nth_bytes_repeat (Z.to_nat 65536) (Z.to_nat cid) ltac:(lia)) as [-> ->].
  reflexivity.
Qed.

Lemma length_CIDToGIDMap : length CIDToGIDMap_data = (2 * Z.to_nat 65536)%nat.
Proof. unfold CIDToGIDMap_data. rewrite length_bytes_repeat. reflexivity. Qed.

Lemma register_glyphlessfont_CIDToGIDMap (font : bytes) (pgs : list Page) :
  let '(basefont, pdf) :=
    register_glyphlessfont font {| objects := []; pages := pgs |} in
  CIDToGIDMap_of pdf basefont = Some CIDToGIDMap_data.
Proof. reflexivity. Qed.

End FontFacts.

(** C3, as the claim states it, fails: CID 2 is mapped to glyph 1. *)
Lemma CIDToGIDMap_not_identity :
  ~ (forall cid : Z, (0 <= cid < 65536)%Z -> GID_of CIDToGIDMap_data cid = cid).
Proof.
  intros H. specialize (H 2%Z ltac:(lia)).
  rewrite FontFacts.GID_of_CIDToGIDMap in H by lia. discriminate.
Qed.

(** C3, amended. The map stream that [register_glyphlessfont] attaches to
    the CID font is a table of 65536 two-byte entries, each 0x0001: every
    CID of the 16-bit space maps to glyph 1. *)
Theorem CIDToGIDMap_constant (font : bytes) (pgs : list Page) (cid : Z) :
  (0 <= cid < 65536)%Z ->
  let '(basefont, pdf) :=
    register_glyphlessfont font {| objects := []; pages := pgs |} in
  exists data,
    CIDToGIDMap_of pdf basefont = Some data
    /\ length data = (2 * Z.to_nat 65536)%nat
    /\ nth (Z.to_nat (2 * cid)) data 0%Z = 0x00%Z
    /\ nth (Z.to_nat (2 * cid + 1)) data 0%Z = 0x01%Z
    /\ GID_of data cid = 1%Z.
Proof.
  intros Hc.
  pose proof (FontFacts.register_glyphlessfont_CIDToGIDMap font pgs) as Hreg.
  destruct (register_glyphlessfont font _) as [basefont pdf].
  exists CIDToGIDMap_data. split; [exact Hreg|].
  split; [apply FontFacts.length_CIDToGIDMap|].
  replace (Z.to_nat (2 * cid)) with (2 * Z.to_nat cid)%nat by lia.
  replace (Z.to_nat (2 * cid + 1)) with (2 * Z.to_nat cid + 1)%nat by lia.
  destruct (FontFacts.nth_bytes_repeat (Z.to_nat 65536) (Z.to_nat cid) ltac:(lia))
    as [H0 H1].
  repeat split; [exact H0 | exact H1 | apply FontFacts.GID_of_CIDToGIDMap; exact Hc].
Qed.

Lemma CIDToGIDMap_constant_witness :
  let '(basefont, pdf) :=
    register_glyphlessfont [] {| objects := []; pages := [] |} in
  exists data,
    CIDToGIDMap_of pdf basefont = Some data
    /\ length data = (2 * Z.to_nat 65536)%nat
    /\ nth (Z.to_nat (2 * 2)) data 0%Z = 0x00%Z
    /\ nth (Z.to_nat (2 * 2 + 1)) data 0%Z = 0x01%Z
    /\ GID_of data 2 = 1%Z.
Proof.
  apply (CIDToGIDMap_constant [] [] 2%Z). lia.
Defined.

(** ** C8: input errors come before the document *)

Section InputErrors.

Variable font : bytes.

(** Once the image has been read, no [ValueError] can follow: the
    outcome is success or the [RuntimeError] of the second [try]. *)
Lemma paddleocr_to_pdf_after_read (w : World) (image_scale : R)
    (r : option PaddleResult) (boxes : bool) (dims : Z * Z * (R * R)) :
  path_exists w = true -> ~ image_scale <= 0 ->
  read_image w image_scale = inr dims ->
  exists pdf,
    paddleocr_to_pdf font w image_scale r boxes = (inr tt, Some pdf)
    \/ paddleocr_to_pdf font w image_scale r boxes
       = (inl (RuntimeError "Failed to generate PDF"), Some pdf).
Proof.
  intros He Hs Hr. unfold paddleocr_to_pdf. rewrite He, Hr. cbn [negb].
  destruct (Rle_dec image_scale 0) as [Hle|_]; [contradiction|].
  destruct dims as [[width height] scale].
  destruct (register_glyphlessfont font _) as [f pdf].
  destruct (PdfOps.alloc _ _) as [stream pdf'].
  destruct (save_ok w); eexists; [left | right]; reflexivity.
Qed.

(** The [ValueError] outcomes, which do not look at the OCR result. *)
Lemma paddleocr_to_pdf_ValueError (w : World) (image_scale : R)
    (r : option PaddleResult) (boxes : bool) (msg : string) (doc : option Pdf) :
  paddleocr_to_pdf font w image_scale r boxes = (inl (ValueError msg), doc) ->
  doc = None
  /\ forall r' boxes',
       paddleocr_to_pdf font w image_scale r' boxes' = (inl (ValueError msg), None).
Proof.
  intros H.
  destruct (path_exists w) eqn:He.
  - destruct (Rle_dec image_scale 0) as [Hle|Hgt].
    + unfold paddleocr_to_pdf in *. rewrite He in *. cbn [negb] in *.
      destruct (Rle_dec image_scale 0); [|contradiction].
      injection H as <- <-. split; reflexivity.
    + destruct (read_image w image_scale) as [e|dims] eqn:Hr.
      * unfold paddleocr_to_pdf in *. rewrite He, Hr in *. cbn [negb] in *.
        destruct (Rle_dec image_scale 0); [contradiction|].
        injection H as <- <-. split; reflexivity.
      * destruct (paddleocr_to_pdf_after_read w image_scale r boxes dims He Hgt Hr)
          as [pdf [Hp | Hp]]; rewrite Hp in H; discriminate.
  - unfold paddleocr_to_pdf in *. rewrite He in *. cbn [negb] in *.
    injection H as <- <-. split; reflexivity.
Qed.

End InputErrors.

(** C8. A missing image file, an [image_scale <= 0] or a non-positive
    image width or height makes [paddleocr_to_pdf] raise [ValueError]
    with no document created; and a [ValueError] never depends on the OCR
    result: it is raised, with no document, whatever the result is. *)
Theorem input_errors_before_allocation (font : bytes) (w : World)
    (image_scale : R) (r : option PaddleResult) (boxes : bool) :
  (path_exists w = false
   \/ image_scale <= 0
   \/ (exists im, image_open w = Some im
                  /\ (im_width im <= 0 \/ im_height im <= 0)%Z) ->
   exists msg,
     paddleocr_to_pdf font w image_scale r boxes = (inl (ValueError msg), None))
  /\ (forall msg doc,
        paddleocr_to_pdf font w image_scale r boxes = (inl (ValueError msg), doc) ->
        doc = None
        /\ forall r' boxes',
             paddleocr_to_pdf font w image_scale r' boxes'
             = (inl (ValueError msg), None)).
Proof.
  split.
  - intros H. unfold paddleocr_to_pdf.
    destruct (path_exists w); cbn [negb]; [|eauto].
    destruct (Rle_dec image_scale 0) as [_|Hgt]; [eauto|].
    destruct H as [H | [H | (im & Him & Hdim)]]; [discriminate | contradiction |].
    unfold read_image. rewrite Him.
    assert (Hb : ((im_width im <=? 0) || (im_height im <=? 0))%Z = true).
    { apply orb_true_iff. destruct Hdim; [left | right]; apply Z.leb_le; assumption. }
    rewrite Hb. eauto.
  - intros msg doc. apply paddleocr_to_pdf_ValueError.
Qed.

Lemma input_errors_before_allocation_witness :
  let w := {| path_exists := true;
              image_open := Some {| im_dpi := Some (96, 96);
                                    im_width := 0; im_height := 100 |};
              save_ok := true |} in
  exists msg,
    paddleocr_to_pdf [] w 1 (Some (sample_result [sample_word Hi 0.99])) true
    = (inl (ValueError msg), None).
Proof.
  apply (proj1 (input_errors_before_allocation [] _ 1
                  (Some (sample_result [sample_word Hi 0.99])) true)).
  right. right. eexists. split; [reflexivity|]. left. cbn. lia.
Defined.

(** ** C9: bracketing *)

Section Brackets.

Variables (scale : R * R) (height : Z) (boxes : bool).

(** When every text can be encoded, every fragment is closed. *)
Lemma balanced_fragments (ws : list word_data) (mcid : Z) :
  Forall (fun w => Utf16.encodable (get (word_text w) []) = true) ws ->
  balanced ["q"%string] (fragments scale height boxes mcid ws ++ [instr [] "Q"])
  = true.
Proof.
  revert mcid. induction ws as [|w ws IH]; intros mcid Hall; [reflexivity|].
  inversion Hall as [|? ? He Hws]; subst.
  cbn [fragments]. unfold word_fragment.
  destruct (word_valid scale height w).
  - apply Utf16Facts.encode_encodable in He as [b ->]. cbv beta iota.
    rewrite <- !app_assoc.
    change (balanced ["q"%string]
              (run_head scale height mcid w ++ run_tail b
               ++ (if boxes then box_of scale height w else [])
               ++ fragments scale height boxes (mcid + 1) ws ++ [instr [] "Q"]))
      with (balanced ["q"%string]
              ((if boxes then box_of scale height w else [])
               ++ fragments scale height boxes (mcid + 1) ws ++ [instr [] "Q"])).
    destruct boxes; apply (IH _ Hws).
  - apply (IH _ Hws).
Qed.

(** On results whose texts can all be encoded, the stream is well
    bracketed. *)
Lemma encodable_texts_well_bracketed (r : option PaddleResult) :
  Forall (fun w => Utf16.encodable (get (word_text w) []) = true) (all_words r) ->
  well_bracketed (generate_text_content_stream r scale height boxes) = true.
Proof.
  intros Hall. rewrite generate_spec. unfold well_bracketed.
  change (instr [] "q" :: ?l ++ [instr [] "Q"])
    with ((instr [] "q" :: l) ++ [instr [] "Q"]) at 1.
  rewrite last_last.
  change (balanced [] (instr [] "q" :: ?l)) with (balanced ["q"%string] l).
  rewrite balanced_fragments by exact Hall. reflexivity.
Qed.

End Brackets.

(** C9 fails on the code.  A word whose text is a lone surrogate passes
    every test of the loop body; [TJ] then raises after [BT], [BDC], [Tr],
    [Tm], [Tf] and [Tz] have been appended, the [except] clause swallows
    the exception, and the text object and the marked content are never
    closed. *)
Theorem unencodable_text_unbalanced :
  let out :=
    generate_text_content_stream
      (Some (sample_result [sample_word lone_surrogate 0.99]))
      sample_scale sample_height false in
  map operator out = ["q"; "BT"; "BDC"; "Tr"; "Tm"; "Tf"; "Tz"; "Q"]%string
  /\ well_bracketed out = false.
Proof.
  cbv zeta. rewrite generate_spec. unfold lone_surrogate.
  change (all_words (Some (sample_result [sample_word [0xD800%Z] 0.99])))
    with [sample_word [0xD800%Z] 0.99].
  cbn [fragments]. unfold word_fragment.
  rewrite (sample_word_valid 0xD800%Z [] 0.99).
  change (Utf16.encode (get (word_text (sample_word [0xD800%Z] 0.99)) []))
    with (@None bytes).
  split; reflexivity.
Qed.

(** The same defect seen from the marked-content ids: the word after the
    failed one reuses its id. *)
Example unencodable_text_repeats_mcid :
  MCIDs (generate_text_content_stream
           (Some (sample_result [sample_word lone_surrogate 0.99;
                                 sample_word Hi 0.99]))
           sample_scale sample_height false)
  = [0; 0]%Z.
Proof.
  rewrite generate_spec. unfold lone_surrogate, Hi.
  change (all_words (Some (sample_result [sample_word [0xD800%Z] 0.99;
                                          sample_word [72%Z; 105%Z] 0.99])))
    with [sample_word [0xD800%Z] 0.99; sample_word [72%Z; 105%Z] 0.99].
  cbn [fragments]. unfold word_fragment.
  rewrite (sample_word_valid 0xD800%Z [] 0.99).
  rewrite (sample_word_valid 72%Z [105%Z] 0.99).
  change (Utf16.encode (get (word_text (sample_word [0xD800%Z] 0.99)) []))
    with (@None bytes).
  reflexivity.
Qed.

(** ** The end-to-end scenario

    One image, 96 dpi, scale 1, 200 x 100 pixels, one block with the word
    [{bbox: [10,10,90,30], text: "Hi", score: 0.99}]. *)

Lemma sample_run_head (mcid : Z) (score : R) :
  run_head sample_scale sample_height mcid (sample_word Hi score)
  = [ instr [] "BT";
      instr [Name "/Span"; Dictionary [("/MCID"%string, Int mcid)]] "BDC";
      instr [Int 3] "Tr";
      instr [Real 1; Real 0; Real 0; Real 1; Real 7.5; Real 52.5] "Tm";
      instr [Name "/f-0-0"; Real 15] "Tf";
      instr [Real 400] "Tz" ].
Proof.
  unfold run_head.
  rewrite sample_word_angle.
  change (get (word_bbox (sample_word Hi score)) []) with [10; 10; 90; 30].
  change (get (word_text (sample_word Hi score)) []) with Hi.
  unfold sample_scale.
  rewrite box_width_bbox, font_size_bbox, word_pts_bbox.
  rewrite (Rabs_pos_eq ((90 - 10) * (72 / 96 / 1))) by lra.
  rewrite (Rabs_pos_eq ((30 - 10) * (72 / 96 / 1))) by lra.
  assert (Hs : snap 0 = 0).
  { apply snap_small. rewrite Rabs_R0. unfold ANGLE_THRESHOLD_RAD. lra. }
  rewrite Hs, cos_0, sin_0, Ropp_0.
  cbn [nth length Hi INR]. unfold sample_height.
  repeat f_equal; lra.
Qed.

Example end_to_end_stream :
  generate_text_content_stream (Some (sample_result [sample_word Hi 0.99]))
    sample_scale sample_height false
  = [ instr [] "q";
      instr [] "BT";
      instr [Name "/Span"; Dictionary [("/MCID"%string, Int 0)]] "BDC";
      instr [Int 3] "Tr";
      instr [Real 1; Real 0; Real 0; Real 1; Real 7.5; Real 52.5] "Tm";
      instr [Name "/f-0-0"; Real 15] "Tf";
      instr [Real 400] "Tz";
      instr [Array [Bytes [0x00; 0x48; 0x00; 0x69]%Z]] "TJ";
      instr [] "EMC";
      instr [] "ET";
      instr [] "Q" ].
Proof.
  rewrite generate_spec.
  change (all_words (Some (sample_result [sample_word Hi 0.99])))
    with [sample_word Hi 0.99].
  cbn [fragments]. unfold word_fragment.
  unfold Hi at 1. rewrite (sample_word_valid 72%Z [105%Z] 0.99). fold Hi.
  change (Utf16.encode (get (word_text (sample_word Hi 0.99)) []))
    with (Some [0x00; 0x48; 0x00; 0x69]%Z).
  cbv beta iota. rewrite sample_run_head. reflexivity.
Qed.

Example end_to_end_transcript :
  decode_all
    (TJ_operands
       (generate_text_content_stream (Some (sample_result [sample_word Hi 0.99]))
          sample_scale sample_height false))
  = Some Hi.
Proof. rewrite end_to_end_stream. reflexivity. Qed.

Example end_to_end_page :
  let w := {| path_exists := true;
              image_open := Some {| im_dpi := Some (96, 96);
                                    im_width := 200; im_height := 100 |};
              save_ok := true |} in
  exists pdf,
    paddleocr_to_pdf [] w 1 (Some (sample_result [sample_word Hi 0.99])) false
    = (inr tt, Some pdf)
    /\ map page_size (pages pdf) = [(150, 75)]
    /\ length (objects pdf) = 7%nat.
Proof.
  cbv zeta. unfold paddleocr_to_pdf. cbn [path_exists negb].
  destruct (Rle_dec 1 0) as [Hle|_]; [lra|].
  unfold read_image. cbn [image_open im_dpi im_width im_height get fst snd].
  change ((200 <=? 0) || (100 <=? 0))%Z with false. cbv iota.
  destruct (Req_dec_T 96 0) as [H0|_]; [lra|].
  eexists. split; [reflexivity|].
  split; [|reflexivity].
  cbn [pages PdfOps.set_page0 PdfOps.update map page_size].
  cbn. unfold PDF_POINTS_PER_INCH. f_equal. f_equal; lra.
Qed.

(** * Further properties *)

(** ** Geometry helpers: lengths *)

Lemma length_pt_from_pixel (l : list R) (scale : R * R) (h : R) :
  length (pt_from_pixel l scale h) = (2 * Nat.div2 (length l))%nat.
Proof.
  revert l. fix IH 1. intros [|x [|y rest]]; [reflexivity | reflexivity |].
  cbn [pt_from_pixel length Nat.div2]. rewrite (IH rest). lia.
Qed.

(** [zip] pairs the coordinates up: an input of even length keeps its
    length, and one more trailing coordinate is dropped without a trace. *)
Theorem pt_from_pixel_pairs (l : list R) (scale : R * R) (h x : R) :
  Nat.even (length l) = true ->
  length (pt_from_pixel l scale h) = length l
  /\ pt_from_pixel (l ++ [x]) scale h = pt_from_pixel l scale h.
Proof.
  revert l. fix IH 1. intros [|a [|b rest]] He.
  - split; reflexivity.
  - discriminate.
  - cbn [length Nat.even] in He. destruct (IH rest He) as [Hl Ha].
    cbn [pt_from_pixel length app]. rewrite Hl, Ha. split; reflexivity.
Qed.

Lemma pt_from_pixel_pairs_witness :
  Nat.even (length [10; 20]) = true
  /\ length (pt_from_pixel [10; 20] (2, 3) 100) = length [10; 20]
  /\ pt_from_pixel ([10; 20] ++ [30]) (2, 3) 100 = pt_from_pixel [10; 20] (2, 3) 100.
Proof.
  split; [reflexivity|].
  apply (pt_from_pixel_pairs [10; 20] (2, 3) 100 30). reflexivity.
Defined.

(** [bbox_to_poly] accepts exactly the four-element boxes, and the quad
    of an accepted box always has eight coordinates, before and after
    [pt_from_pixel]: the test [len(quad) != 8] never fires and the
    indices 0..7 are always in range. *)
Theorem quad_has_eight (wb : list R) (scale : R * R) (h : R) :
  (bbox_to_poly wb = None <-> length wb <> 4%nat)
  /\ (forall poly, bbox_to_poly wb = Some poly ->
        length (poly_to_quad poly) = 8%nat
        /\ length (pt_from_pixel (poly_to_quad poly) scale h) = 8%nat).
Proof.
  destruct wb as [|x1 [|y1 [|x2 [|y2 [|z zs]]]]]; cbn [bbox_to_poly length];
    (split;
     [ split; intro H;
       first [discriminate H | reflexivity | lia]
     | intros poly Hp;
       first [discriminate Hp | (injection Hp as <-; split; reflexivity)] ]).
Qed.

Lemma quad_has_eight_witness :
  length (poly_to_quad [[10; 10]; [90; 10]; [90; 30]; [10; 30]]) = 8%nat
  /\ length (pt_from_pixel (poly_to_quad [[10; 10]; [90; 10]; [90; 30]; [10; 30]])
               (1, 1) 100) = 8%nat.
Proof.
  apply (proj2 (quad_has_eight [10; 10; 90; 30] (1, 1) 100)). reflexivity.
Defined.

(** ** The shape of every stream *)

Section StreamShape.

Variables (scale : R * R) (height : Z).

(** A property of every instruction a word can contribute holds of every
    instruction of the fragments. *)
Lemma fragments_Forall (P : ContentStreamInstruction -> Prop) (boxes : bool) :
  (forall mcid w, Forall P (run_head scale height mcid w)) ->
  (forall b, Forall P (run_tail b)) ->
  (forall w, Forall P (box_of scale height w)) ->
  forall ws mcid, Forall P (fragments scale height boxes mcid ws).
Proof.
  intros Hh Ht Hb. induction ws as [|w ws IH]; intros mcid; [constructor|].
  cbn [fragments]. unfold word_fragment.
  destruct (word_valid scale height w); [|apply IH].
  destruct (Utf16.encode _) as [b|]; cbv beta iota.
  - repeat (apply Forall_app; split); auto. destruct boxes; [apply Hb | constructor].
  - apply Forall_app; split; auto.
Qed.

Lemma text_layer_app (l1 l2 : list ContentStreamInstruction) :
  text_layer (l1 ++ l2) = text_layer l1 ++ text_layer l2.
Proof. apply filter_app. Qed.

Lemma text_layer_fragments (boxes : bool) (ws : list word_data) (mcid : Z) :
  text_layer (fragments scale height boxes mcid ws)
  = fragments scale height false mcid ws.
Proof.
  revert mcid. induction ws as [|w ws IH]; intros mcid; [reflexivity|].
  cbn [fragments]. unfold word_fragment.
  destruct (word_valid scale height w); [|apply IH].
  destruct (Utf16.encode _) as [b|]; cbv beta iota.
  - rewrite !text_layer_app, IH, app_nil_r.
    destruct boxes; rewrite <- app_assoc; reflexivity.
  - rewrite text_layer_app, IH. reflexivity.
Qed.

Lemma count_re_fragments (ws : list word_data) (mcid : Z) :
  count_op "re" (fragments scale height true mcid ws)
  = length (filter (word_emitted scale height) ws).
Proof.
  unfold count_op.
  revert mcid. induction ws as [|w ws IH]; intros mcid; [reflexivity|].
  cbn [fragments filter]. unfold word_fragment, word_emitted.
  destruct (word_valid scale height w); [|apply IH].
  cbn [andb]. destruct (Utf16.encodable _) eqn:He.
  - apply Utf16Facts.encode_encodable in He as [b ->]. cbv beta iota.
    rewrite !filter_app, !length_app, IH. reflexivity.
  - rewrite (Utf16Facts.encode_not_encodable _ He). cbv beta iota.
    rewrite filter_app, length_app, IH. reflexivity.
Qed.

End StreamShape.

(** Whatever the input, the stream opens with [q] and closes with [Q];
    without debug boxes everything in between belongs to the text layer,
    so these two are the only save and restore. *)
Theorem outer_save_restore (r : option PaddleResult) (scale : R * R)
    (height : Z) (boxes : bool) :
  (exists body,
     generate_text_content_stream r scale height boxes
     = instr [] "q" :: body ++ [instr [] "Q"])
  /\ generate_text_content_stream r scale height false
     = instr [] "q"
       :: text_layer (generate_text_content_stream r scale height false)
       ++ [instr [] "Q"].
Proof.
  split.
  - eexists. apply generate_spec.
  - rewrite generate_spec at 2.
    change (instr [] "q" :: ?l ++ [instr [] "Q"])
      with ([instr [] "q"] ++ l ++ [instr [] "Q"]) at 2.
    rewrite !text_layer_app, text_layer_fragments.
    change (text_layer [instr [] "q"]) with (@nil ContentStreamInstruction).
    change (text_layer [instr [] "Q"]) with (@nil ContentStreamInstruction).
    rewrite app_nil_r. apply generate_spec.
Qed.

(** The [boxes] flag only adds drawing instructions: the text layer is the
    same with and without it, and with it there is one rectangle for each
    emitted word. *)
Theorem debug_boxes_leave_text_layer (r : option PaddleResult) (scale : R * R)
    (height : Z) :
  text_layer (generate_text_content_stream r scale height true)
  = text_layer (generate_text_content_stream r scale height false)
  /\ count_op "re" (generate_text_content_stream r scale height true)
     = length (filter (word_emitted scale height) (all_words r))
  /\ count_op "re" (generate_text_content_stream r scale height false) = 0%nat.
Proof.
  rewrite !generate_spec.
  change (instr [] "q" :: ?l ++ [instr [] "Q"])
    with ([instr [] "q"] ++ l ++ [instr [] "Q"]).
  split; [|split].
  - rewrite !text_layer_app, !text_layer_fragments. reflexivity.
  - unfold count_op. rewrite !filter_app, !length_app.
    change (length (filter (is_op "re") [instr [] "q"])) with 0%nat.
    change (length (filter (is_op "re") [instr [] "Q"])) with 0%nat.
    rewrite Nat.add_0_r. apply count_re_fragments.
  - unfold count_op. rewrite !filter_app, !length_app.
    change (length (filter (is_op "re") [instr [] "q"])) with 0%nat.
    change (length (filter (is_op "re") [instr [] "Q"])) with 0%nat.
    rewrite Nat.add_0_r. cbn [Nat.add].
    rewrite <- (text_layer_fragments scale height false).
    unfold text_layer. induction (fragments scale height false 0 (all_words r))
      as [|i l IH]; [reflexivity|].
    cbn [filter]. destruct (is_text_op i) eqn:Ht; [|exact IH].
    cbn [filter]. destruct (is_op "re" i) eqn:Hre; [|exact IH].
    exfalso. unfold is_op in Hre. apply String.eqb_eq in Hre.
    unfold is_text_op in Ht. rewrite Hre in Ht. discriminate.
Qed.

(** Decide what an instruction with a literal operator has to satisfy. *)
Ltac instr_case :=
  let H := fresh "H" in
  intro H; unfold is_op in H; cbn [operator instr] in H;
  apply String.eqb_eq in H;
  first [discriminate H | cbn [operands instr]; eauto].

(** The text state never varies: every [Tr] selects the invisible mode 3,
    every [Tf] names the font [/f-0-0], and every [BDC] is a [/Span] with
    a single [/MCID] entry. *)
Theorem text_state_constants (r : option PaddleResult) (scale : R * R)
    (height : Z) (boxes : bool) :
  Forall (fun i =>
            (is_op "Tr" i = true -> operands i = [Int 3])
            /\ (is_op "Tf" i = true ->
                exists size, operands i = [Name "/f-0-0"; Real size])
            /\ (is_op "BDC" i = true ->
                exists mcid,
                  operands i = [Name "/Span"; Dictionary [("/MCID"%string, Int mcid)]]))
         (generate_text_content_stream r scale height boxes).
Proof.
  rewrite generate_spec.
  assert (Hno : forall op, (is_op "Tr" (instr [] op) = true -> False) ->
                           (is_op "Tf" (instr [] op) = true -> False) ->
                           (is_op "BDC" (instr [] op) = true -> False) ->
                (is_op "Tr" (instr [] op) = true -> operands (instr [] op) = [Int 3])
                /\ (is_op "Tf" (instr [] op) = true ->
                    exists size, operands (instr [] op) = [Name "/f-0-0"; Real size])
                /\ (is_op "BDC" (instr [] op) = true ->
                    exists mcid, operands (instr [] op)
                                 = [Name "/Span"; Dictionary [("/MCID"%string, Int mcid)]])).
  { intros op H1 H2 H3. repeat split; intros H; exfalso; auto. }
  constructor; [apply Hno; discriminate|].
  apply Forall_app. split; [|constructor; [apply Hno; discriminate | constructor]].
  apply fragments_Forall.
  - intros mcid w. unfold run_head. repeat constructor; instr_case.
  - intros b. unfold run_tail. repeat constructor; instr_case.
  - intros w. unfold box_of. repeat constructor; instr_case.
Qed.

(** Only the order of the words matters, not how they are grouped into
    blocks: results with the same words in the same order give the same
    stream, so empty blocks leave no trace. *)
Theorem block_boundaries_irrelevant (r1 r2 : option PaddleResult)
    (scale : R * R) (height : Z) (boxes : bool) :
  all_words r1 = all_words r2 ->
  generate_text_content_stream r1 scale height boxes
  = generate_text_content_stream r2 scale height boxes.
Proof. intros H. rewrite !generate_spec, H. reflexivity. Qed.

Lemma block_boundaries_irrelevant_witness :
  let w1 := sample_word Hi 0.99 in
  let w2 := sample_word lone_surrogate 0.5 in
  let block ws := {| label := "text"; bbox := []; content := ""; ocr_words := ws |} in
  let r1 := Some {| blocks := [block [w1; w2]] |} in
  let r2 := Some {| blocks := [block []; block [w1]; block []; block [w2]] |} in
  all_words r1 = all_words r2
  /\ generate_text_content_stream r1 sample_scale sample_height true
     = generate_text_content_stream r2 sample_scale sample_height true.
Proof.
  split; [reflexivity|].
  apply block_boundaries_irrelevant. reflexivity.
Defined.

(** ** A valid word, in pixel terms *)

Section PixelTerms.

Variables (sx sy : R) (height : Z).

Lemma word_valid_inv (w : word_data) :
  word_valid (sx, sy) height w = true ->
  exists c text x1 y1 x2 y2,
    get (word_text w) [] = c :: text
    /\ get (word_bbox w) [] = [x1; y1; x2; y2]
    /\ (x2 - x1) * sx <> 0 /\ (y2 - y1) * sy <> 0.
Proof.
  unfold word_valid. intros Hv.
  destruct (get (word_text w) []) as [|c text]; [discriminate|].
  destruct (get (word_bbox w) []) as [|x1 [|y1 [|x2 [|y2 [|z zs]]]]];
    try discriminate.
  cbn [length Nat.eqb negb andb] in Hv.
  rewrite box_width_bbox, font_size_bbox in Hv.
  destruct (Rle_dec (Rabs ((x2 - x1) * sx)) 0) as [Hw|Hw]; [discriminate|].
  destruct (Rle_dec (Rabs ((y2 - y1) * sy)) 0) as [Hf|Hf]; [discriminate|].
  exists c, text, x1, y1, x2, y2. repeat split.
  - intros H0. apply Hw. rewrite H0, Rabs_R0. lra.
  - intros H0. apply Hf. rewrite H0, Rabs_R0. lra.
Qed.

Lemma PI_gt_3 : 3 < PI.
Proof. pose proof PI2_3_2. lra. Qed.

(** A box that runs right to left is turned by half a turn. *)
Lemma raw_angle_bbox_neg (x1 y1 x2 y2 : R) :
  (x2 - x1) * sx < 0 ->
  raw_angle (sx, sy) height [x1; y1; x2; y2] = - PI.
Proof.
  intros Hneg. unfold raw_angle. rewrite word_pts_bbox. cbn [nth].
  replace ((IZR height - y2) * sy - (IZR height - y2) * sy) with 0 by ring.
  unfold atan2.
  destruct (Rlt_dec 0 (x2 * sx - x1 * sx)) as [Hp|_]; [lra|].
  destruct (Rlt_dec (x2 * sx - x1 * sx) 0) as [_|Hn]; [|lra].
  destruct (Rle_dec 0 0) as [_|Hn]; [|lra].
  unfold Rdiv. rewrite Rmult_0_l, atan_0. ring.
Qed.

Lemma snap_PI : snap (- PI) = - PI.
Proof.
  unfold snap. destruct (Rlt_dec _ _) as [H|_]; [|reflexivity].
  rewrite Rabs_Ropp, Rabs_pos_eq in H by (pose proof PI_gt_3; lra).
  unfold ANGLE_THRESHOLD_RAD in H. pose proof PI_gt_3. lra.
Qed.

Lemma snap_0 : snap 0 = 0.
Proof. apply snap_small. rewrite Rabs_R0. unfold ANGLE_THRESHOLD_RAD. lra. Qed.

End PixelTerms.

(** A word passes the tests of the loop body exactly when its text is
    non-empty and its box has four coordinates with non-zero scaled width
    and height; the page height plays no part. *)
Theorem word_valid_iff (sx sy : R) (height : Z) (w : word_data) :
  word_valid (sx, sy) height w = true <->
  exists c text x1 y1 x2 y2,
    word_text w = Some (c :: text)
    /\ word_bbox w = Some [x1; y1; x2; y2]
    /\ (x2 - x1) * sx <> 0 /\ (y2 - y1) * sy <> 0.
Proof.
  split.
  - intros Hv.
    destruct (word_valid_inv sx sy height w Hv)
      as (c & text & x1 & y1 & x2 & y2 & Ht & Hb & Hx & Hy).
    exists c, text, x1, y1, x2, y2.
    destruct (word_text w) as [t|]; [|discriminate].
    destruct (word_bbox w) as [b|]; [|discriminate].
    cbn [get] in Ht, Hb. subst. repeat split; assumption.
  - intros (c & text & x1 & y1 & x2 & y2 & Ht & Hb & Hx & Hy).
    apply (word_valid_bbox sx sy height w c text x1 y1 x2 y2); assumption.
Qed.

(** The text matrix is never a proper rotation: a valid word whose box
    runs left to right gets (1, 0, 0, 1), one whose box runs right to left
    is not skipped but gets (-1, 0, 0, -1); the origin is the transformed
    bottom-left corner. *)
Theorem text_matrix_upright_or_reversed (sx sy : R) (height : Z) (boxes : bool)
    (cs : CS.t) (mcid : Z) (w : word_data) (x1 y1 x2 y2 : R) :
  word_bbox w = Some [x1; y1; x2; y2] ->
  word_valid (sx, sy) height w = true ->
  exists run mcid' d,
    process_word (sx, sy) height boxes (cs, mcid) w = (extend cs run, mcid')
    /\ filter (is_op "Tm") run
       = [instr [Real d; Real 0; Real 0; Real d;
                 Real (x1 * sx); Real ((IZR height - y2) * sy)] "Tm"]
    /\ ((0 < (x2 - x1) * sx /\ d = 1) \/ ((x2 - x1) * sx < 0 /\ d = -1)).
Proof.
  intros Hb Hv.
  destruct (word_valid_inv sx sy height w Hv)
    as (c & text & x1' & y1' & x2' & y2' & _ & Hb' & Hx & _).
  rewrite Hb in Hb'. cbn [get] in Hb'. injection Hb' as <- <- <- <-.
  destruct (process_word_valid (sx, sy) height boxes cs mcid w Hv)
    as (rest & mcid' & Hstep & HTm & _).
  destruct (Rlt_dec 0 ((x2 - x1) * sx)) as [Hpos|Hnpos].
  - exists (run_head (sx, sy) height mcid w ++ rest), mcid', 1.
    split; [exact Hstep|]. split; [|left; split; [exact Hpos | reflexivity]].
    rewrite filter_app, HTm, app_nil_r. unfold run_head. rewrite Hb. cbn [get].
    rewrite (raw_angle_bbox sx sy height x1 y1 x2 y2 Hpos).
    rewrite snap_0, cos_0, sin_0, Ropp_0, word_pts_bbox. reflexivity.
  - assert (Hneg : (x2 - x1) * sx < 0) by lra.
    exists (run_head (sx, sy) height mcid w ++ rest), mcid', (-1).
    split; [exact Hstep|]. split; [|right; split; [exact Hneg | reflexivity]].
    rewrite filter_app, HTm, app_nil_r. unfold run_head. rewrite Hb. cbn [get].
    rewrite (raw_angle_bbox_neg sx sy height x1 y1 x2 y2 Hneg).
    rewrite snap_PI, cos_neg, cos_PI, sin_neg, sin_PI, Ropp_0, Ropp_0, word_pts_bbox.
    reflexivity.
Qed.

(** Font size and stretch in pixel terms: the [Tf] size is the pixel
    height of the box times |scale_y|, and the [Tz] percentage is
    100 * (pixel width * |scale_x|) / character count / font size * 2.
    Neither depends on the page height or on where the box lies. *)
Theorem run_metrics_in_pixels (sx sy : R) (height : Z) (boxes : bool)
    (cs : CS.t) (mcid : Z) (w : word_data) (text : pystr) (x1 y1 x2 y2 : R) :
  word_text w = Some text ->
  word_bbox w = Some [x1; y1; x2; y2] ->
  word_valid (sx, sy) height w = true ->
  let font_size := Rabs (y2 - y1) * Rabs sy in
  let run_width := Rabs (x2 - x1) * Rabs sx in
  exists run mcid',
    process_word (sx, sy) height boxes (cs, mcid) w = (extend cs run, mcid')
    /\ filter (is_op "Tf") run = [instr [Name "/f-0-0"; Real font_size] "Tf"]
    /\ filter (is_op "Tz") run
       = [instr [Real (100 * run_width / INR (length text) / font_size * 2)] "Tz"]
    /\ 0 < font_size /\ 0 < run_width.
Proof.
  intros Ht Hb Hv font_size run_width.
  destruct (word_valid_inv sx sy height w Hv)
    as (c & text' & x1' & y1' & x2' & y2' & _ & Hb' & Hx & Hy).
  rewrite Hb in Hb'. cbn [get] in Hb'. injection Hb' as <- <- <- <-.
  rewrite process_word_spec. unfold word_fragment. rewrite Hv.
  assert (Hhead :
    run_head (sx, sy) height mcid w
    = [ instr [] "BT";
        instr [Name "/Span"; Dictionary [("/MCID"%string, Int mcid)]] "BDC";
        instr [Int 3] "Tr";
        instr [Real (cos (snap (raw_angle (sx, sy) height [x1; y1; x2; y2])));
               Real (- sin (snap (raw_angle (sx, sy) height [x1; y1; x2; y2])));
               Real (sin (snap (raw_angle (sx, sy) height [x1; y1; x2; y2])));
               Real (cos (snap (raw_angle (sx, sy) height [x1; y1; x2; y2])));
               Real (x1 * sx); Real ((IZR height - y2) * sy)] "Tm";
        instr [Name "/f-0-0"; Real font_size] "Tf";
        instr [Real (100 * run_width / INR (length text) / font_size * 2)] "Tz" ]).
  { unfold run_head. rewrite Ht, Hb. cbn [get].
    rewrite box_width_bbox, font_size_bbox, word_pts_bbox, !Rabs_mult.
    reflexivity. }
  assert (Hpos : 0 < font_size /\ 0 < run_width).
  { unfold font_size, run_width. rewrite <- !Rabs_mult.
    split; apply Rabs_pos_lt; assumption. }
  destruct (Utf16.encode _) as [b|]; cbn [fst snd]; rewrite Hhead.
  - eexists. eexists. split; [reflexivity|].
    destruct boxes; (split; [reflexivity | split; [reflexivity | exact Hpos]]).
  - eexists. eexists. split; [reflexivity|].
    split; [reflexivity | split; [reflexivity | exact Hpos]].
Qed.

Lemma reversed_word_valid :
  word_valid sample_scale sample_height reversed_word = true.
Proof.
  apply (word_valid_bbox _ _ _ _ 72%Z [105%Z] 90 10 10 30); try reflexivity; lra.
Qed.

Lemma text_matrix_upright_or_reversed_witness :
  let w := reversed_word in
  let cs := CS.q CS.init in
  word_valid sample_scale sample_height w = true
  /\ exists run mcid' d,
       process_word sample_scale sample_height false (cs, 0%Z) w
         = (extend cs run, mcid')
       /\ filter (is_op "Tm") run
          = [instr [Real d; Real 0; Real 0; Real d;
                    Real (90 * (72 / 96 / 1));
                    Real ((IZR sample_height - 30) * (72 / 96 / 1))] "Tm"]
       /\ ((0 < (10 - 90) * (72 / 96 / 1) /\ d = 1)
           \/ ((10 - 90) * (72 / 96 / 1) < 0 /\ d = -1)).
Proof.
  split; [exact reversed_word_valid|].
  exact (text_matrix_upright_or_reversed (72 / 96 / 1) (72 / 96 / 1)
           sample_height false (CS.q CS.init) 0%Z reversed_word 90 10 10 30
           eq_refl reversed_word_valid).
Defined.

Lemma run_metrics_in_pixels_witness :
  let w := sample_word Hi 0.99 in
  let cs := CS.q CS.init in
  let font_size := Rabs (30 - 10) * Rabs (72 / 96 / 1) in
  let run_width := Rabs (90 - 10) * Rabs (72 / 96 / 1) in
  word_valid sample_scale sample_height w = true
  /\ exists run mcid',
       process_word sample_scale sample_height true (cs, 0%Z) w
         = (extend cs run, mcid')
       /\ filter (is_op "Tf") run = [instr [Name "/f-0-0"; Real font_size] "Tf"]
       /\ filter (is_op "Tz") run
          = [instr [Real (100 * run_width / INR (length Hi) / font_size * 2)] "Tz"]
       /\ 0 < font_size /\ 0 < run_width.
Proof.
  assert (Hv : word_valid sample_scale sample_height (sample_word Hi 0.99) = true)
    by apply sample_word_valid.
  split; [exact Hv|].
  exact (run_metrics_in_pixels (72 / 96 / 1) (72 / 96 / 1) sample_height true
           (CS.q CS.init) 0%Z (sample_word Hi 0.99) Hi 10 10 90 30
           eq_refl eq_refl Hv).
Defined.

(** ** [TJ]: when it raises, and what it appends *)

Module TJFacts.

Local Open Scope Z_scope.

Lemma not_encodable_iff (s : pystr) :
  encodable s = false <-> exists c, In c s /\ is_surrogate c = true.
Proof.
  induction s as [|c s IH]; cbn [encodable forallb In].
  - split; [discriminate | intros [? [[] _]]].
  - fold (encodable s). rewrite andb_false_iff, IH. split.
    + intros [Hc | (c' & Hin & Hs)].
      * exists c. split; [left; reflexivity|].
        destruct (is_surrogate c); [reflexivity | discriminate].
      * exists c'. split; [right; exact Hin | exact Hs].
    + intros (c' & [-> | Hin] & Hs).
      * left. rewrite Hs. reflexivity.
      * right. exists c'. split; assumption.
Qed.

Lemma encode_codepoint_bytes (c : codepoint) (b : bytes) :
  valid_codepoint c -> encode_codepoint c = Some b ->
  Forall (fun x => 0 <= x < 256) b /\ Nat.even (length b) = true.
Proof.
  unfold valid_codepoint, encode_codepoint. intros Hv He.
  destruct (c <? 0x10000) eqn:Hlt.
  - destruct (is_surrogate c); [discriminate|].
    assert (b = unit_bytes c) by congruence. subst b.
    apply Z.ltb_lt in Hlt.
    split; [apply Utf16Facts.unit_bytes_range; lia | reflexivity].
  - apply Z.ltb_ge in Hlt. cbv zeta in He.
    assert (Hb : b = unit_bytes (0xD800 + Z.shiftr (c - 0x10000) 10)
                     ++ unit_bytes (0xDC00 + Z.land (c - 0x10000) 0x3FF))
      by congruence.
    subst b. split; [|reflexivity].
    rewrite Utf16Facts.shiftr10, Utf16Facts.land_3FF.
    pose proof (Z.mod_pos_bound (c - 0x10000) 1024 ltac:(lia)).
    assert (0 <= (c - 0x10000) / 1024 < 1024).
    { split; [apply Z.div_pos; lia | apply Z.div_lt_upper_bound; lia]. }
    apply Forall_app. split; apply Utf16Facts.unit_bytes_range; lia.
Qed.

Lemma encode_bytes (s : pystr) (b : bytes) :
  valid_str s -> Utf16.encode s = Some b ->
  Forall (fun x => 0 <= x < 256) b /\ Nat.even (length b) = true.
Proof.
  revert b. induction s as [|c s IH]; intros b Hv He.
  - injection He as <-. split; [constructor | reflexivity].
  - cbn [Utf16.encode] in He. inversion Hv as [|? ? Hc Hs]; subst.
    destruct (encode_codepoint c) as [bc|] eqn:Hec; [|discriminate].
    destruct (Utf16.encode s) as [bs|] eqn:Hes; [|discriminate].
    injection He as <-.
    destruct (encode_codepoint_bytes c bc Hc Hec) as [Hr1 He1].
    destruct (IH bs Hs eq_refl) as [Hr2 He2].
    split; [apply Forall_app; split; assumption|].
    rewrite length_app, Nat.even_add, He1, He2. reflexivity.
Qed.

End TJFacts.

(** [TJ] raises exactly when the text holds a surrogate code point, and
    then the builder is left as it was.  Otherwise it appends one
    instruction whose operand is a well-formed byte string of even length
    that decodes back to the text. *)
Theorem TJ_raises_on_surrogates (text : pystr) (cs : CS.t) :
  (CS.TJ text cs = None <-> exists c, In c text /\ is_surrogate c = true)
  /\ (valid_str text ->
      forall cs', CS.TJ text cs = Some cs' ->
      exists b,
        CS.build cs' = CS.build cs ++ [instr [Array [Bytes b]] "TJ"]
        /\ Utf16.decode b = Some text
        /\ Forall (fun x => (0 <= x < 256)%Z) b
        /\ Nat.even (length b) = true).
Proof.
  unfold CS.TJ. split.
  - rewrite <- TJFacts.not_encodable_iff. split.
    + intros H. destruct (Utf16.encode text) as [b|] eqn:He; [discriminate|].
      destruct (encodable text) eqn:Hen; [|reflexivity].
      apply Utf16Facts.encode_encodable in Hen as [b Hb]. congruence.
    + intros Hen. rewrite (Utf16Facts.encode_not_encodable _ Hen). reflexivity.
  - intros Hv cs' H.
    destruct (Utf16.encode text) as [b|] eqn:He; [|discriminate].
    injection H as <-. exists b.
    destruct (TJFacts.encode_bytes text b Hv He) as [Hr Hl].
    split; [reflexivity|]. split; [|split; assumption].
    apply Utf16Facts.decode_encode; assumption.
Qed.

Lemma TJ_raises_on_surrogates_witness :
  valid_str Hi
  /\ exists b,
       CS.build (CS.append CS.init (instr [Array [Bytes [0; 72; 0; 105]%Z]] "TJ"))
       = CS.build CS.init ++ [instr [Array [Bytes b]] "TJ"]
       /\ Utf16.decode b = Some Hi
       /\ Forall (fun x => (0 <= x < 256)%Z) b
       /\ Nat.even (length b) = true.
Proof.
  assert (Hv : valid_str Hi) by (repeat constructor; unfold valid_codepoint; lia).
  split; [exact Hv|].
  apply (proj2 (TJ_raises_on_surrogates Hi CS.init) Hv). reflexivity.
Defined.

(** ** The font objects *)

Module RegisterFacts.

Lemma update_app_r {A} (l l' : list A) (n k : nat) (f : A -> A) :
  n = (length l + k)%nat ->
  PdfOps.update (l ++ l') n f = l ++ PdfOps.update l' k f.
Proof.
  intros ->. induction l as [|a l IH]; [reflexivity|].
  cbn [app length Nat.add PdfOps.update]. rewrite IH. reflexivity.
Qed.

Lemma alloc_at (objs news : list indirect_object) (pgs : list Page)
    (o : indirect_object) :
  PdfOps.alloc {| objects := objs ++ news; pages := pgs |} o
  = ((length objs + length news)%nat,
     {| objects := objs ++ (news ++ [o]); pages := pgs |}).
Proof.
  unfold PdfOps.alloc. cbn [objects pages].
  rewrite length_app, app_assoc. reflexivity.
Qed.

Lemma setattr_at (objs news : list indirect_object) (pgs : list Page)
    (k : nat) (key : string) (v : Object) :
  PdfOps.setattr {| objects := objs ++ news; pages := pgs |}
    (length objs + k) key v
  = {| objects :=
         objs ++ PdfOps.update news k
                   (fun o => match o with
                             | IndirectDict d => IndirectDict (PdfOps.set_key d key v)
                             | o' => o'
                             end);
       pages := pgs |}.
Proof.
  unfold PdfOps.setattr. cbn [objects pages].
  rewrite (update_app_r objs news _ k) by reflexivity. reflexivity.
Qed.

(** The document after registration: the objects it had, then the six
    of the font. *)
Lemma register_glyphlessfont_objects (font : bytes) (pdf : Pdf) :
  register_glyphlessfont font pdf
  = (length (objects pdf),
     {| objects := objects pdf ++ font_objects (length (objects pdf)) font;
        pages := pages pdf |}).
Proof.
  destruct pdf as [objs pgs]. cbn [objects pages].
  rewrite <- (app_nil_r objs) at 1.
  unfold register_glyphlessfont, PdfOps.make_indirect, PdfOps.make_stream.
  repeat (first [rewrite alloc_at | rewrite setattr_at];
          cbn -[CIDToGIDMap_data ToUnicode_data Nat.add PdfOps.alloc PdfOps.setattr]).
  rewrite Nat.add_0_r. reflexivity.
Qed.

End RegisterFacts.

Lemma nth_error_at {A} (l l' : list A) (k : nat) :
  nth_error (l ++ l') (length l + k) = nth_error l' k.
Proof.
  rewrite nth_error_app2 by lia. f_equal. lia.
Qed.

Lemma follow_at (objs new : list indirect_object) (pgs : list Page)
    (k : nat) (key : string) :
  follow {| objects := objs ++ new; pages := pgs |} (length objs + k) key
  = follow {| objects := new; pages := pgs |} k key.
Proof. unfold follow, deref_dict. cbn [objects]. rewrite nth_error_at. reflexivity. Qed.

Lemma follow_at0 (objs new : list indirect_object) (pgs : list Page)
    (key : string) :
  follow {| objects := objs ++ new; pages := pgs |} (length objs) key
  = follow {| objects := new; pages := pgs |} 0 key.
Proof. rewrite <- (follow_at objs new pgs 0 key), Nat.add_0_r. reflexivity. Qed.

Lemma stream_data_at (objs new : list indirect_object) (pgs : list Page)
    (k : nat) :
  stream_data {| objects := objs ++ new; pages := pgs |} (length objs + k)
  = stream_data {| objects := new; pages := pgs |} k.
Proof. unfold stream_data. cbn [objects]. rewrite nth_error_at. reflexivity. Qed.

(** Registration is append-only and complete: the objects the document
    had are untouched, the pages too, exactly six objects are added, the
    handle returned is the first of them, and none of the six still holds
    a placeholder. *)
Theorem register_glyphlessfont_appends (font : bytes) (pdf : Pdf) :
  let '(basefont, pdf') := register_glyphlessfont font pdf in
  basefont = length (objects pdf)
  /\ pages pdf' = pages pdf
  /\ exists new,
       objects pdf' = objects pdf ++ new
       /\ length new = 6%nat
       /\ existsb object_has_placeholder new = false.
Proof.
  rewrite RegisterFacts.register_glyphlessfont_objects.
  split; [reflexivity|]. split; [reflexivity|].
  exists (font_objects (length (objects pdf)) font).
  split; [reflexivity|]. split; reflexivity.
Qed.

(** From the base font the references lead, through the CID font and its
    descriptor, to a stream that holds the glyph program byte for byte,
    and to the ToUnicode stream. *)
Theorem font_reference_chain (font : bytes) (pdf : Pdf) :
  let '(basefont, pdf') := register_glyphlessfont font pdf in
  exists cidfont descriptor fontfile tounicode,
    follow pdf' basefont "/DescendantFonts" = Some cidfont
    /\ follow pdf' cidfont "/FontDescriptor" = Some descriptor
    /\ follow pdf' descriptor "/FontFile2" = Some fontfile
    /\ stream_data pdf' fontfile = Some font
    /\ follow pdf' basefont "/ToUnicode" = Some tounicode
    /\ stream_data pdf' tounicode = Some ToUnicode_data.
Proof.
  rewrite RegisterFacts.register_glyphlessfont_objects.
  set (n := length (objects pdf)).
  exists (n + 1)%nat, (n + 4)%nat, (n + 5)%nat, (n + 3)%nat.
  unfold n. rewrite !follow_at, !stream_data_at, !follow_at0.
  repeat split; reflexivity.
Qed.

(** ** [paddleocr_to_pdf]: every outcome *)

Section Outcomes.

Variable font : bytes.







End Outcomes.

#[local] Set Warnings "-unused-intro-pattern".






(** ** [PaddleConfig] *)

Module ConfigFacts.

Lemma dict_get_filter {V} (p : string -> bool) (d : list (string * V))
    (key : string) :
  p key = true ->
  dict_get (filter (fun kv => p (fst kv)) d) key = dict_get d key.
Proof.
  intros Hp. induction d as [|[k v] d IH]; [reflexivity|].
  cbn [filter fst dict_get]. destruct (p k) eqn:Hk.
  - cbn [dict_get]. rewrite IH. reflexivity.
  - rewrite IH. destruct (String.eqb_spec k key) as [->|_]; [congruence | reflexivity].
Qed.

Lemma kwarg_filtered (data : pydict) (name : string) :
  existsb (String.eqb name) valid_fields = true ->
  kwarg (filter (fun kv => existsb (String.eqb (fst kv)) valid_fields) data) name
  = kwarg data name.
Proof.
  intros H. unfold kwarg.
  rewrite (dict_get_filter (fun k => existsb (String.eqb k) valid_fields) data name H).
  reflexivity.
Qed.

(** The constructor sees the four fields as [data] has them. *)
Lemma from_dict_fields (data : pydict) :
  from_dict data
  = {| text_detection_model_name := kwarg data "text_detection_model_name";
       text_detection_model_dir := kwarg data "text_detection_model_dir";
       text_recognition_model_name := kwarg data "text_recognition_model_name";
       text_recognition_model_dir := kwarg data "text_recognition_model_dir" |}.
Proof. unfold from_dict. rewrite !kwarg_filtered by reflexivity. reflexivity. Qed.

Lemma kwarg_Some (data : pydict) (name : string) (v : pyvalue) :
  kwarg data name = v -> v <> PyNone -> dict_get data name = Some v.
Proof.
  unfold kwarg. destruct (dict_get data name); intros; congruence.
Qed.

End ConfigFacts.

(** Round trip: the keyword arguments of a configuration rebuild it. *)
Theorem config_round_trip (config : PaddleConfig) :
  from_dict (to_ppstructure_kwargs config) = config.
Proof.
  rewrite ConfigFacts.from_dict_fields.
  destruct config as [[| | |] [| | |] [| | |] [| | |]]; reflexivity.
Qed.

(** [from_dict] reads the four field names and nothing else: two
    dictionaries that agree on them give the same configuration, so
    unknown keys are ignored and a missing field is [None]. *)
Theorem from_dict_reads_four_fields (data data' : pydict) :
  (forall name, In name valid_fields -> dict_get data name = dict_get data' name) ->
  from_dict data = from_dict data'.
Proof.
  intros H. rewrite !ConfigFacts.from_dict_fields. unfold kwarg.
  rewrite !H by (cbn; tauto). reflexivity.
Qed.

Lemma from_dict_reads_four_fields_witness :
  let data := [("engine_workers", PyInt 4);
               ("text_detection_model_dir", PyStr "models/det");
               ("languages", PyStr "eng")]%string in
  let data' := [("text_detection_model_dir", PyStr "models/det")]%string in
  (forall name, In name valid_fields -> dict_get data name = dict_get data' name)
  /\ from_dict data = from_dict data'.
Proof.
  assert (H : forall name, In name valid_fields ->
                dict_get [("engine_workers", PyInt 4);
                          ("text_detection_model_dir", PyStr "models/det");
                          ("languages", PyStr "eng")]%string name
                = dict_get [("text_detection_model_dir", PyStr "models/det")]%string name).
  { intros name [<- | [<- | [<- | [<- | []]]]]; reflexivity. }
  split; [exact H|].
  exact (from_dict_reads_four_fields _ _ H).
Defined.

(** What reaches the pipeline comes from the options: every keyword
    argument of [from_dict(data)] is one of the four fields, is not
    [None], and carries the value [data] has under that key. *)
Theorem kwargs_come_from_data (data : pydict) (key : string) (v : pyvalue) :
  In (key, v) (to_ppstructure_kwargs (from_dict data)) ->
  In key valid_fields /\ v <> PyNone /\ dict_get data key = Some v.
Proof.
  rewrite ConfigFacts.from_dict_fields.
  destruct (kwarg data "text_detection_model_name") as [| | |] eqn:H1;
  destruct (kwarg data "text_detection_model_dir") as [| | |] eqn:H2;
  destruct (kwarg data "text_recognition_model_name") as [| | |] eqn:H3;
  destruct (kwarg data "text_recognition_model_dir") as [| | |] eqn:H4;
  cbn; intros Hin;
  repeat match goal with
         | H : _ \/ _ |- _ => destruct H as [H | H]
         | H : False |- _ => destruct H
         | H : (_, _) = (_, _) |- _ => injection H as <- <-
         end;
  (split; [cbn; tauto|]);
  (split; [discriminate|]);
  apply ConfigFacts.kwarg_Some; first [assumption | discriminate].
Qed.

Lemma kwargs_come_from_data_witness :
  let data := [("engine_workers", PyInt 4);
               ("text_detection_model_dir", PyStr "models/det")]%string in
  In ("text_detection_model_dir"%string, PyStr "models/det")
     (to_ppstructure_kwargs (from_dict data))
  /\ In "text_detection_model_dir"%string valid_fields
  /\ PyStr "models/det" <> PyNone
  /\ dict_get data "text_detection_model_dir" = Some (PyStr "models/det").
Proof.
  assert (H : In ("text_detection_model_dir"%string, PyStr "models/det")
                (to_ppstructure_kwargs
                   (from_dict [("engine_workers", PyInt 4);
                               ("text_detection_model_dir", PyStr "models/det")]%string))).
  { left. reflexivity. }
  split; [exact H|].
  exact (kwargs_come_from_data _ _ _ H).
Defined.

(** ** The arguments of the OCR pipeline *)

Module KwargsFacts.

(** The fields of a configuration go after the fixed entries; none of
    them replaces one. *)
Lemma dict_update_base (code : string) (config : PaddleConfig) :
  dict_update (base_kwargs code) (to_ppstructure_kwargs config)
  = base_kwargs code
    ++ filter (fun kv => negb (is_None (snd kv))) (instance_dict config).
Proof.
  destruct config as [[| | |] [| | |] [| | |] [| | |]]; reflexivity.
Qed.

Lemma resolve_languages_known (langs : list string) :
  Forall (fun l => dict_get ISO_639_3_2 l <> None) langs ->
  exists codes,
    resolve_languages langs = inr codes
    /\ Forall2 (fun l c => dict_get ISO_639_3_2 l = Some c) langs codes.
Proof.
  induction 1 as [|l langs Hl _ IH].
  - exists []. split; [reflexivity | constructor].
  - destruct IH as (codes & Hr & Hf). cbn [resolve_languages].
    destruct (dict_get ISO_639_3_2 l) as [code|] eqn:Hc; [|contradiction].
    rewrite Hr. exists (code :: codes). split; [reflexivity|].
    constructor; assumption.
Qed.

Lemma resolve_languages_unknown (pre post : list string) (l : string) :
  Forall (fun x => dict_get ISO_639_3_2 x <> None) pre ->
  dict_get ISO_639_3_2 l = None ->
  resolve_languages (pre ++ l :: post) = inl (KeyError l).
Proof.
  intros Hpre Hl. induction Hpre as [|x pre Hx _ IH]; cbn [app resolve_languages].
  - rewrite Hl. reflexivity.
  - destruct (dict_get ISO_639_3_2 x); [|contradiction]. rewrite IH. reflexivity.
Qed.

End KwargsFacts.

(** Which language the pipeline gets, and when there is none: an empty
    language list raises [IndexError]; the first language missing from
    the table raises [KeyError], also when it is not the first of the
    list; otherwise [lang] is the table's code for the first language. *)
Theorem paddle_kwargs_languages (langs : list string)
    (paddle_config : option PaddleConfig) :
  (langs = [] -> paddle_kwargs langs paddle_config = inl IndexError)
  /\ (forall pre l post,
        langs = pre ++ l :: post ->
        Forall (fun x => dict_get ISO_639_3_2 x <> None) pre ->
        dict_get ISO_639_3_2 l = None ->
        paddle_kwargs langs paddle_config = inl (KeyError l))
  /\ (forall l rest,
        langs = l :: rest ->
        Forall (fun x => dict_get ISO_639_3_2 x <> None) langs ->
        exists kwargs code,
          paddle_kwargs langs paddle_config = inr kwargs
          /\ dict_get ISO_639_3_2 l = Some code
          /\ dict_get kwargs "lang" = Some (PyStr code)).
Proof.
  split; [|split].
  - intros ->. reflexivity.
  - intros pre l post -> Hpre Hl. unfold paddle_kwargs.
    rewrite (KwargsFacts.resolve_languages_unknown pre post l Hpre Hl). reflexivity.
  - intros l rest -> Hall. unfold paddle_kwargs.
    destruct (KwargsFacts.resolve_languages_known _ Hall) as (codes & -> & Hf).
    inversion Hf as [|? code ? codes' Hl Hrest]; subst.
    destruct paddle_config as [config|].
    + eexists. exists code. split; [reflexivity|]. split; [exact Hl|].
      change (dict_update _ (to_ppstructure_kwargs config))
        with (dict_update (base_kwargs code) (to_ppstructure_kwargs config)).
      rewrite KwargsFacts.dict_update_base. reflexivity.
    + eexists. exists code. split; [reflexivity|]. split; [exact Hl | reflexivity].
Qed.

Lemma paddle_kwargs_languages_witness :
  paddle_kwargs ["eng"; "xxx"]%string None = inl (KeyError "xxx").
Proof.
  apply (proj1 (proj2 (paddle_kwargs_languages ["eng"; "xxx"]%string None))
           ["eng"%string] "xxx"%string []).
  - reflexivity.
  - repeat constructor. discriminate.
  - reflexivity.
Defined.

(** A configuration only adds arguments: the arguments built are the
    language and the four fixed switches, followed by the fields of the
    configuration that are not [None], in field order. *)
Theorem paddle_kwargs_fixed (langs : list string)
    (paddle_config : option PaddleConfig) (kwargs : pydict) :
  paddle_kwargs langs paddle_config = inr kwargs ->
  exists code,
    kwargs
    = [ ("lang", PyStr code);
        ("use_table_recognition", PyBool true);
        ("use_chart_recognition", PyBool false);
        ("use_formula_recognition", PyBool false);
        ("use_seal_recognition", PyBool false) ]%string
      ++ match paddle_config with
         | Some config =>
             filter (fun kv => negb (is_None (snd kv))) (instance_dict config)
         | None => []
         end.
Proof.
  unfold paddle_kwargs.
  destruct (resolve_languages langs) as [e|[|code codes]]; try discriminate.
  destruct paddle_config as [config|]; intros H; injection H as <-; exists code.
  - apply KwargsFacts.dict_update_base.
  - reflexivity.
Qed.

Lemma paddle_kwargs_fixed_witness :
  let config := {| text_detection_model_name := PyNone;
                   text_detection_model_dir := PyStr "models/det";
                   text_recognition_model_name := PyNone;
                   text_recognition_model_dir := PyNone |} in
  exists code,
    [ ("lang", PyStr "de");
      ("use_table_recognition", PyBool true);
      ("use_chart_recognition", PyBool false);
      ("use_formula_recognition", PyBool false);
      ("use_seal_recognition", PyBool false);
      ("text_detection_model_dir", PyStr "models/det") ]%string
    = [ ("lang", PyStr code);
        ("use_table_recognition", PyBool true);
        ("use_chart_recognition", PyBool false);
        ("use_formula_recognition", PyBool false);
        ("use_seal_recognition", PyBool false) ]%string
      ++ filter (fun kv => negb (is_None (snd kv))) (instance_dict config).
Proof.
  apply (paddle_kwargs_fixed ["deu"; "eng"]%string
           (Some {| text_detection_model_name := PyNone;
                    text_detection_model_dir := PyStr "models/det";
                    text_recognition_model_name := PyNone;
                    text_recognition_model_dir := PyNone |})).
  reflexivity.
Defined.

(** ** Building a [PaddleResult] *)

Module ModelsFacts.

Lemma collect_Forall2 {A B} (f : A -> lookup_error + B) (l : list A) (bs : list B) :
  collect f l = inr bs -> Forall2 (fun a b => f a = inr b) l bs.
Proof.
  revert bs. induction l as [|a l IH]; intros bs H; cbn [collect] in H.
  - injection H as <-. constructor.
  - destruct (f a) as [e|b] eqn:Hf; [discriminate|].
    destruct (collect f l) as [e|bs'] eqn:Hc; [discriminate|].
    injection H as <-. constructor; [exact Hf | apply IH; reflexivity].
Qed.

Lemma collect_map {A B} (f : A -> lookup_error + B) (g : A -> B) (l : list A) :
  (forall a, In a l -> f a = inr (g a)) -> collect f l = inr (map g l).
Proof.
  induction l as [|a l IH]; intros H; [reflexivity|].
  cbn [collect map]. rewrite (H a (or_introl eq_refl)), IH; [reflexivity|].
  intros a' Ha'. apply H. right. exact Ha'.
Qed.

Lemma Forall2_map_eq {A B C} (Rel : A -> B -> Prop) (f : B -> C) (g : A -> C)
    (l : list A) (l' : list B) :
  (forall a b, Rel a b -> f b = g a) -> Forall2 Rel l l' -> map f l' = map g l.
Proof.
  intros H HF. induction HF as [|a b l l' Hab _ IH]; [reflexivity|].
  cbn [map]. rewrite (H a b Hab), IH. reflexivity.
Qed.

Lemma Forall2_Forall_r {A B} (Rel : A -> B -> Prop) (P : B -> Prop)
    (l : list A) (l' : list B) :
  (forall a b, Rel a b -> P b) -> Forall2 Rel l l' -> Forall P l'.
Proof.
  intros H HF. induction HF as [|a b l l' Hab _ IH]; constructor; eauto.
Qed.

Lemma getitem_In {A} (l : list A) (i : nat) (a : A) :
  getitem l i = inr a -> In a l.
Proof.
  unfold getitem. destruct (nth_error l i) eqn:H; [|discriminate].
  intros E. injection E as <-. eapply nth_error_In. exact H.
Qed.

Lemma map_nth_seq {A} (l : list A) (d : A) :
  map (fun i => nth i l d) (seq 0 (length l)) = l.
Proof.
  induction l as [|a l IH]; [reflexivity|].
  cbn [length seq map nth]. f_equal.
  rewrite <- seq_shift, map_map. exact IH.
Qed.

Section Extract.

Variable get_sub_regions_ocr_res : OCRResult -> list R -> list nat.
Variable sort_by_xycut : list (list R) -> string -> list nat.

(** The words of a block are words of the OCR result at matched
    indices. *)
Lemma extract_provenance (block : LayoutBlock) (ocr : OCRResult)
    (ws : list word_data) :
  _extract_ocr_words_for_block get_sub_regions_ocr_res sort_by_xycut block ocr
    = inr ws ->
  Forall (fun w => exists box_no,
            In box_no (get_sub_regions_ocr_res ocr (block_bbox block))
            /\ word_at ocr box_no = inr w) ws.
Proof.
  unfold _extract_ocr_words_for_block. intros H.
  destruct (collect (word_at ocr) _) as [e|words] eqn:Hc; [discriminate|].
  apply collect_Forall2 in Hc.
  assert (Hwords : forall w, In w words ->
            exists box_no,
              In box_no (get_sub_regions_ocr_res ocr (block_bbox block))
              /\ word_at ocr box_no = inr w).
  { clear H. induction Hc as [|i w idx words Hi _ IH]; intros w' Hin; [destruct Hin|].
    destruct Hin as [<- | Hin].
    - exists i. split; [left; reflexivity | exact Hi].
    - destruct (IH w' Hin) as (j & Hj & Hw). exists j. split; [right; exact Hj | exact Hw]. }
  destruct words as [|w0 words'].
  - injection H as <-. constructor.
  - apply collect_Forall2 in H. apply Forall_forall. intros w Hw.
    apply Hwords.
    clear - H Hw. induction H as [|i w' is' ws' Hi _ IH]; [destruct Hw|].
    destruct Hw as [<- | Hw]; [exact (getitem_In _ _ _ Hi) | exact (IH Hw)].
Qed.

(** Block by block, what a successful construction holds. *)
Lemma from_layout_result_blocks (result : LayoutParsingResultV2)
    (ocr : OCRResult) (parsing : list LayoutBlock) (r : PaddleResult) :
  overall_ocr_res result = Some ocr ->
  parsing_res_list result = Some parsing ->
  from_layout_result get_sub_regions_ocr_res sort_by_xycut result = inr r ->
  Forall2 (fun lb b =>
             label b = block_label lb /\ bbox b = block_bbox lb
             /\ content b = get (block_content lb) ""%string
             /\ _extract_ocr_words_for_block get_sub_regions_ocr_res
                  sort_by_xycut lb ocr = inr (ocr_words b))
          parsing (blocks r).
Proof.
  intros Ho Hp. unfold from_layout_result. rewrite Ho, Hp. cbn [get].
  destruct parsing as [|lb0 parsing'].
  - intros H. injection H as <-. constructor.
  - destruct (collect _ (lb0 :: parsing')) as [e|bs] eqn:Hc; [discriminate|].
    intros H. injection H as <-. cbn [blocks].
    apply collect_Forall2 in Hc.
    eapply Forall2_impl; [|exact Hc].
    intros lb b Hb. cbv beta in Hb.
    destruct (_extract_ocr_words_for_block _ _ lb ocr) as [e|ws]; [discriminate|].
    injection Hb as <-. cbn. repeat split; reflexivity.
Qed.

End Extract.

End ModelsFacts.

(** A result that lacks the word list or has no layout block gives a
    [PaddleResult] without blocks, never an error, and from it the blank
    stream. *)
Theorem missing_results_give_blank_page
    (get_sub_regions_ocr_res : OCRResult -> list R -> list nat)
    (sort_by_xycut : list (list R) -> string -> list nat)
    (result : LayoutParsingResultV2) (scale : R * R) (height : Z) (boxes : bool) :
  overall_ocr_res result = None
  \/ parsing_res_list result = None
  \/ parsing_res_list result = Some [] ->
  exists r,
    from_layout_result get_sub_regions_ocr_res sort_by_xycut result = inr r
    /\ blocks r = []
    /\ generate_text_content_stream (Some r) scale height boxes
       = [instr [] "q"; instr [] "Q"].
Proof.
  intros H. exists {| blocks := [] |}.
  split; [|split; reflexivity].
  unfold from_layout_result.
  destruct H as [-> | [-> | ->]]; [reflexivity | |];
    destruct (overall_ocr_res result); reflexivity.
Qed.

Lemma missing_results_give_blank_page_witness :
  exists r,
    from_layout_result (fun _ _ => [0%nat]) (fun _ _ => [0%nat])
      {| overall_ocr_res := None;
         parsing_res_list :=
           Some [{| block_label := "text"; block_bbox := [0; 0; 10; 10];
                    block_content := None |}] |} = inr r
    /\ blocks r = []
    /\ generate_text_content_stream (Some r) (1, 1) 100 true
       = [instr [] "q"; instr [] "Q"].
Proof.
  apply missing_results_give_blank_page. left. reflexivity.
Defined.

(** A successful construction keeps the layout: one block for each layout
    block, in the same order, with its label and box, and with the empty
    string for a block that has no content. *)
Theorem blocks_follow_layout
    (get_sub_regions_ocr_res : OCRResult -> list R -> list nat)
    (sort_by_xycut : list (list R) -> string -> list nat)
    (result : LayoutParsingResultV2) (ocr : OCRResult)
    (parsing : list LayoutBlock) (r : PaddleResult) :
  overall_ocr_res result = Some ocr ->
  parsing_res_list result = Some parsing ->
  from_layout_result get_sub_regions_ocr_res sort_by_xycut result = inr r ->
  map (fun b => (label b, bbox b, content b)) (blocks r)
  = map (fun lb => (block_label lb, block_bbox lb, get (block_content lb) ""%string))
        parsing.
Proof.
  intros Ho Hp Hr.
  pose proof (ModelsFacts.from_layout_result_blocks _ _ result ocr parsing r Ho Hp Hr)
    as HF.
  eapply ModelsFacts.Forall2_map_eq; [|exact HF].
  intros lb b (Hl & Hb & Hc & _). rewrite Hl, Hb, Hc. reflexivity.
Qed.

(** No word is made up: every word of every block of a constructed result
    is the word of the OCR result at an index that the matcher returned
    for that block's box, and carries all four keys. *)
Theorem words_come_from_ocr
    (get_sub_regions_ocr_res : OCRResult -> list R -> list nat)
    (sort_by_xycut : list (list R) -> string -> list nat)
    (result : LayoutParsingResultV2) (ocr : OCRResult) (r : PaddleResult) :
  overall_ocr_res result = Some ocr ->
  from_layout_result get_sub_regions_ocr_res sort_by_xycut result = inr r ->
  Forall (fun b =>
            Forall (fun w =>
                      exists box_no t bb l s,
                        In box_no (get_sub_regions_ocr_res ocr (bbox b))
                        /\ nth_error (rec_texts ocr) box_no = Some t
                        /\ nth_error (rec_boxes ocr) box_no = Some bb
                        /\ nth_error (rec_labels ocr) box_no = Some l
                        /\ nth_error (rec_scores ocr) box_no = Some s
                        /\ w = {| word_text := Some t; word_bbox := Some bb;
                                  word_label := Some l; word_score := Some s |})
                   (ocr_words b))
         (blocks r).
Proof.
  intros Ho Hr.
  destruct (parsing_res_list result) as [parsing|] eqn:Hp.
  - pose proof (ModelsFacts.from_layout_result_blocks _ _ result ocr parsing r Ho Hp Hr)
      as HF.
    eapply ModelsFacts.Forall2_Forall_r; [|exact HF].
    intros lb b (_ & Hb & _ & He).
    apply ModelsFacts.extract_provenance in He. rewrite Hb.
    eapply Forall_impl; [|exact He].
    intros w (box_no & Hin & Hw). unfold word_at, getitem in Hw.
    destruct (nth_error (rec_boxes ocr) box_no) as [bb|] eqn:H1; [|discriminate].
    destruct (nth_error (rec_texts ocr) box_no) as [t|] eqn:H2; [|discriminate].
    destruct (nth_error (rec_labels ocr) box_no) as [l|] eqn:H3; [|discriminate].
    destruct (nth_error (rec_scores ocr) box_no) as [s|] eqn:H4; [|discriminate].
    injection Hw as <-. exists box_no, t, bb, l, s.
    repeat split; assumption.
  - unfold from_layout_result in Hr. rewrite Ho, Hp in Hr. cbn [get] in Hr.
    injection Hr as <-. constructor.
Qed.

Lemma sample_layout_result :
  from_layout_result sample_match sample_sort sample_layout
  = inr {| blocks :=
             [ {| label := "table"; bbox := [0; 0; 200; 100]; content := "";
                  ocr_words :=
                    [ {| word_text := Some [33]%Z; word_bbox := Some [100; 10; 150; 30];
                         word_label := Some "text"%string; word_score := Some 0.5 |};
                      {| word_text := Some [72; 105]%Z; word_bbox := Some [10; 10; 90; 30];
                         word_label := Some "text"%string; word_score := Some 0.99 |} ] |} ] |}.
Proof. reflexivity. Qed.

Lemma blocks_follow_layout_witness :
  map (fun b => (label b, bbox b, content b))
      [ {| label := "table"; bbox := [0; 0; 200; 100]; content := "";
           ocr_words :=
             [ {| word_text := Some [33]%Z; word_bbox := Some [100; 10; 150; 30];
                  word_label := Some "text"%string; word_score := Some 0.5 |};
               {| word_text := Some [72; 105]%Z; word_bbox := Some [10; 10; 90; 30];
                  word_label := Some "text"%string; word_score := Some 0.99 |} ] |} ]
  = map (fun lb => (block_label lb, block_bbox lb, get (block_content lb) ""%string))
        [{| block_label := "table"; block_bbox := [0; 0; 200; 100];
            block_content := None |}].
Proof.
  exact (blocks_follow_layout sample_match sample_sort sample_layout sample_ocr
           _ _ eq_refl eq_refl sample_layout_result).
Defined.

Lemma words_come_from_ocr_witness :
  Forall (fun b =>
            Forall (fun w =>
                      exists box_no t bb l s,
                        In box_no (sample_match sample_ocr (bbox b))
                        /\ nth_error (rec_texts sample_ocr) box_no = Some t
                        /\ nth_error (rec_boxes sample_ocr) box_no = Some bb
                        /\ nth_error (rec_labels sample_ocr) box_no = Some l
                        /\ nth_error (rec_scores sample_ocr) box_no = Some s
                        /\ w = {| word_text := Some t; word_bbox := Some bb;
                                  word_label := Some l; word_score := Some s |})
                   (ocr_words b))
         [ {| label := "table"; bbox := [0; 0; 200; 100]; content := "";
              ocr_words :=
                [ {| word_text := Some [33]%Z; word_bbox := Some [100; 10; 150; 30];
                     word_label := Some "text"%string; word_score := Some 0.5 |};
                  {| word_text := Some [72; 105]%Z; word_bbox := Some [10; 10; 90; 30];
                     word_label := Some "text"%string; word_score := Some 0.99 |} ] |} ].
Proof.
  exact (words_come_from_ocr sample_match sample_sort sample_layout sample_ocr
           _ eq_refl sample_layout_result).
Defined.

(** When the sorter answers with a permutation of the positions, the
    words of the block are the matched words in another order: none is
    lost and none is repeated. *)
Theorem reading_order_is_a_permutation
    (get_sub_regions_ocr_res : OCRResult -> list R -> list nat)
    (sort_by_xycut : list (list R) -> string -> list nat)
    (block : LayoutBlock) (ocr : OCRResult) (words : list word_data) :
  collect (word_at ocr) (get_sub_regions_ocr_res ocr (block_bbox block)) = inr words ->
  Permutation
    (sort_by_xycut (map (fun w => get (word_bbox w) []) words)
       (direction_of (block_label block)))
    (seq 0 (length words)) ->
  exists ws,
    _extract_ocr_words_for_block get_sub_regions_ocr_res sort_by_xycut block ocr
      = inr ws
    /\ Permutation ws words.
Proof.
  intros Hc Hperm. unfold _extract_ocr_words_for_block. rewrite Hc.
  destruct words as [|w0 words'] eqn:Hw; [exists []; split; [reflexivity | constructor]|].
  rewrite <- Hw in *. clear Hw.
  set (sorted := sort_by_xycut _ _) in *.
  assert (Hget : forall i, In i sorted -> getitem words i = inr (nth i words w0)).
  { intros i Hi. apply (Permutation_in _ Hperm) in Hi. apply in_seq in Hi.
    unfold getitem. rewrite (nth_error_nth' words w0) by lia. reflexivity. }
  rewrite (ModelsFacts.collect_map _ (fun i => nth i words w0) sorted Hget).
  eexists. split; [reflexivity|].
  eapply Permutation_trans; [apply Permutation_map; exact Hperm|].
  rewrite ModelsFacts.map_nth_seq. apply Permutation_refl.
Qed.

Lemma reading_order_is_a_permutation_witness :
  let block := {| block_label := "table"; block_bbox := [0; 0; 200; 100];
                  block_content := None |} in
  exists ws,
    _extract_ocr_words_for_block sample_match sample_sort block sample_ocr = inr ws
    /\ Permutation ws
         [ {| word_text := Some [72; 105]%Z; word_bbox := Some [10; 10; 90; 30];
              word_label := Some "text"%string; word_score := Some 0.99 |};
           {| word_text := Some [33]%Z; word_bbox := Some [100; 10; 150; 30];
              word_label := Some "text"%string; word_score := Some 0.5 |} ].
Proof.
  apply (reading_order_is_a_permutation sample_match sample_sort
           {| block_label := "table"; block_bbox := [0; 0; 200; 100];
              block_content := None |} sample_ocr).
  - reflexivity.
  - apply perm_swap.
Defined.

(** ** The worker loop and [generate_pdf] *)

Section EngineFacts.

Variable get_sub_regions_ocr_res : OCRResult -> list R -> list nat.
Variable sort_by_xycut : list (list R) -> string -> list nat.
Variables (Reader Img : Type).
Variable PPStructureV3 : pydict -> option Reader.
Variable predict : Reader -> Img -> option (list LayoutParsingResultV2).
Variable options : Options.

Local Abbreviation handle :=
  (handle_task get_sub_regions_ocr_res sort_by_xycut Reader Img PPStructureV3
     predict options).
Local Abbreviation serve_queue :=
  (serve get_sub_regions_ocr_res sort_by_xycut Reader Img PPStructureV3
     predict options).

(** [finally: event.set()]. *)
Lemma handle_task_sets_event (reader : option Reader) (img : Img) :
  event_set (snd (handle reader img)) = true.
Proof.
  unfold handle_task.
  destruct (obtain_reader _ _ _ _) as [rd|]; [|reflexivity].
  destruct (predict rd img) as [results|]; [|reflexivity].
  destruct (collect _ results); reflexivity.
Qed.

Lemma serve_tasks (imgs : list Img) (tl : list (option Img))
    (reader : option Reader) :
  exists reader' outs,
    length outs = length imgs
    /\ Forall (fun o => event_set o = true) outs
    /\ serve_queue reader (map Some imgs ++ tl)
       = (outs ++ fst (serve_queue reader' tl), snd (serve_queue reader' tl)).
Proof.
  revert reader. induction imgs as [|img imgs IH]; intros reader.
  - exists reader, []. cbn [map app length]. repeat split; [constructor|].
    destruct (serve_queue reader tl); reflexivity.
  - cbn [map app serve].
    pose proof (handle_task_sets_event reader img) as He.
    destruct (handle reader img) as [rd' o]. cbn [snd] in He.
    destruct (IH rd') as (reader' & outs & Hl & Hf & Hs). rewrite Hs.
    exists reader', (o :: outs). cbn [length app fst snd].
    split; [congruence|]. split; [constructor; assumption | reflexivity].
Qed.

(** When the pipeline cannot be set up, no task ever gets a reader. *)
Lemma serve_without_reader (queue : list (option Img)) :
  obtain_reader Reader PPStructureV3 options None = None ->
  Forall (fun o => output o = EmptyString /\ event_set o = true)
         (fst (serve_queue None queue)).
Proof.
  intros Hno. induction queue as [|[img|] queue IH]; cbn [serve fst];
    [constructor | | constructor].
  unfold handle_task. rewrite Hno.
  destruct (serve_queue None queue) as [outs rem]. cbn [fst] in *.
  constructor; [split; reflexivity | exact IH].
Qed.

End EngineFacts.

(** Every task the worker takes is answered: for each image message
    before the stop message there is one outcome, in order, and its
    event is set whether or not recognition succeeded; the worker then
    returns and leaves the later messages in the queue.  Without a stop
    message it answers every task and keeps waiting. *)
Theorem every_task_is_answered
    (get_sub_regions_ocr_res : OCRResult -> list R -> list nat)
    (sort_by_xycut : list (list R) -> string -> list nat)
    (Reader Img : Type) (PPStructureV3 : pydict -> option Reader)
    (predict : Reader -> Img -> option (list LayoutParsingResultV2))
    (options : Options) (imgs : list Img) (later : list (option Img)) :
  (exists outs,
     ocr_process get_sub_regions_ocr_res sort_by_xycut Reader Img PPStructureV3
       predict options (map Some imgs ++ None :: later)
     = (outs, Some later)
     /\ length outs = length imgs
     /\ Forall (fun o => event_set o = true) outs)
  /\ (exists outs,
        ocr_process get_sub_regions_ocr_res sort_by_xycut Reader Img PPStructureV3
          predict options (map Some imgs)
        = (outs, None)
        /\ length outs = length imgs
        /\ Forall (fun o => event_set o = true) outs).
Proof.
  unfold ocr_process. split.
  - destruct (serve_tasks get_sub_regions_ocr_res sort_by_xycut Reader Img
                PPStructureV3 predict options imgs (None :: later) None)
      as (reader' & outs & Hl & Hf & Hs).
    exists outs. rewrite Hs. cbn [serve fst snd]. rewrite app_nil_r. auto.
  - destruct (serve_tasks get_sub_regions_ocr_res sort_by_xycut Reader Img
                PPStructureV3 predict options imgs [] None)
      as (reader' & outs & Hl & Hf & Hs).
    exists outs. rewrite app_nil_r in Hs. rewrite Hs. cbn [serve fst snd].
    rewrite app_nil_r. auto.
Qed.

(** A language outside the table, an empty language list or a pipeline
    that cannot be built fails every task, one by one: each task stores
    the empty string, and the worker goes on serving. *)
Theorem failed_setup_fails_every_task
    (get_sub_regions_ocr_res : OCRResult -> list R -> list nat)
    (sort_by_xycut : list (list R) -> string -> list nat)
    (Reader Img : Type) (PPStructureV3 : pydict -> option Reader)
    (predict : Reader -> Img -> option (list LayoutParsingResultV2))
    (options : Options) (queue : list (option Img)) :
  (exists e, paddle_kwargs (languages options) (_paddle_config options) = inl e)
  \/ (exists kwargs,
        paddle_kwargs (languages options) (_paddle_config options) = inr kwargs
        /\ PPStructureV3 kwargs = None) ->
  Forall (fun o => output o = EmptyString /\ event_set o = true)
         (fst (ocr_process get_sub_regions_ocr_res sort_by_xycut Reader Img
                 PPStructureV3 predict options queue)).
Proof.
  intros Hcause.
  assert (Hno : obtain_reader Reader PPStructureV3 options None = None).
  { unfold obtain_reader. destruct Hcause as [[e ->] | (kw & -> & Hk)]; auto. }
  unfold ocr_process.
  exact (serve_without_reader get_sub_regions_ocr_res sort_by_xycut Reader Img
           PPStructureV3 predict options queue Hno).
Qed.

Lemma failed_setup_fails_every_task_witness :
  Forall (fun o => output o = EmptyString /\ event_set o = true)
         (fst (ocr_process sample_match sample_sort unit nat
                 (fun _ => Some tt) (fun _ _ => Some [sample_layout])
                 {| languages := ["eng"; "klingon"]%string; _paddle_config := None |}
                 [Some 1%nat; Some 2%nat; None; Some 3%nat])).
Proof.
  apply failed_setup_fails_every_task.
  left. eexists. reflexivity.
Defined.

Section GeneratePdf.

Variable get_sub_regions_ocr_res : OCRResult -> list R -> list nat.
Variable sort_by_xycut : list (list R) -> string -> list nat.
Variables (Reader Img : Type).
Variable PPStructureV3 : pydict -> option Reader.
Variable predict : Reader -> Img -> option (list LayoutParsingResultV2).
Variable options : Options.
Variable font : bytes.


End GeneratePdf.

(** A failed recognition reaches the caller of [generate_pdf] as
    [IndexError], with no document: when the pipeline cannot be set up,
    when [predict] raises or returns no result, or when a result cannot
    be turned into a [PaddleResult], indexing the stored output fails
    before [paddleocr_to_pdf] is called. *)
Theorem generate_pdf_ocr_failure
    (get_sub_regions_ocr_res : OCRResult -> list R -> list nat)
    (sort_by_xycut : list (list R) -> string -> list nat)
    (Reader Img : Type) (PPStructureV3 : pydict -> option Reader)
    (predict : Reader -> Img -> option (list LayoutParsingResultV2))
    (options : Options) (font : bytes) (img : Img) (reader : option Reader)
    (w : World) :
  obtain_reader Reader PPStructureV3 options reader = None
  \/ (exists rd,
        obtain_reader Reader PPStructureV3 options reader = Some rd
        /\ (predict rd img = None
            \/ predict rd img = Some []
            \/ exists results e,
                 predict rd img = Some results
                 /\ collect (from_layout_result get_sub_regions_ocr_res sort_by_xycut)
                      results = inl e)) ->
  generate_pdf get_sub_regions_ocr_res sort_by_xycut Reader Img PPStructureV3
    predict options font (Some img) reader w
  = (inl (Lookup IndexError), None).
Proof.
  unfold generate_pdf, handle_task.
  intros [-> | (rd & -> & [-> | [-> | (results & e & -> & ->)]])]; reflexivity.
Qed.

Lemma generate_pdf_ocr_failure_witness :
  generate_pdf sample_match sample_sort unit nat
    (fun _ => Some tt) (fun _ _ => Some [])
    {| languages := ["eng"]%string; _paddle_config := None |}
    [] (Some 1%nat) None
    {| path_exists := true;
       image_open := Some {| im_dpi := None; im_width := 200; im_height := 100 |};
       save_ok := true |}
  = (inl (Lookup IndexError), None).
Proof.
  apply generate_pdf_ocr_failure.
  right. exists tt. split; [reflexivity|]. right. left. reflexivity.
Defined.


